(** * DiscordOps-Monitor: the host monitor core of [main.py]

    A shallow embedding of the sampling, ranking, alerting, history and
    termination-safeguard code of [main.py], and the properties its
    specification states about them.

    Conventions of the embedding.
    - Python [int] is [Z].  Python [float] readings (CPU percentages, the
      clock of [time.time()]) are exact rationals [Q]: the code only
      compares, subtracts and divides them, and the properties below are
      about that order and arithmetic, not about rounding.
    - What the operating system answers (the process table, the outcome of
      each [psutil] call, the clock) is an explicit input of the function
      that asks for it.
    - The perpetual loops ([while True]) are run over the finite list of
      the inputs of their first cycles; every statement holds for every
      such list, that is at every point of an execution. *)

From Stdlib Require Import ZArith QArith Qminmax Qround Lia Lqa DecimalString.
From Stdlib Require Import Sorting.Sorted Sorting.Permutation.
From stdpp Require Import base option list sorting strings gmap.

Local Close Scope Q_scope.
Local Open Scope Z_scope.

(** ** Python primitives used by the code *)

Module Py.

(** [a >= b] and [a > b] on floats. *)
Definition ge (a b : Q) : bool := Qle_bool b a.
Definition gt (a b : Q) : bool := negb (Qle_bool a b).

(** [max(a, b)]: Python keeps [a] unless [b > a]. *)
Definition max (a b : Q) : Q := if gt b a then b else a.

(** [x or 1] for [x : Optional[int]]: [None] and [0] are falsy. *)
Definition or_1 (x : option Z) : Z :=
  match x with
  | None => 1
  | Some c => if c =? 0 then 1 else c
  end.

(** [s or d] for [s : Optional[str]]: [None] and the empty string are falsy. *)
Definition str_or (s : option string) (d : string) : string :=
  match s with
  | None => d
  | Some EmptyString => d
  | Some s' => s'
  end.

(** [str(i)] for an [int]. *)
Definition str (i : Z) : string := NilZero.string_of_int (Z.to_int i).

(** [s[:k]] for a literal [k >= 0]. *)
Definition str_take (k : nat) (s : string) : string := String.substring 0 k s.

(** [l[:n]]: a negative [n] counts from the end, and the bound is clipped. *)
Definition slice_to {A} (n : Z) (l : list A) : list A :=
  if 0 <=? n then firstn (Z.to_nat n) l
  else firstn (length l - Z.to_nat (- n))%nat l.

(** [l[i]]: a negative [i] counts from the end; [None] is [IndexError]. *)
Definition index {A} (l : list A) (i : Z) : option A :=
  let len := Z.of_nat (length l) in
  if (0 <=? i) && (i <? len) then l !! Z.to_nat i
  else if (- len <=? i) && (i <? 0) then l !! Z.to_nat (len + i)
  else None.

(** [needle in s] on strings. *)
Fixpoint contains (needle s : string) : bool :=
  String.prefix needle s ||
  match s with
  | EmptyString => false
  | String _ s' => contains needle s'
  end.

End Py.

(** ** Process Sampler: [snapshot_top_processes] *)

Module Sampler.

(** Outcome of one [p.cpu_percent(None)]: a raw reading, or one of the two
    exceptions the loops catch. *)
Inductive cpu_percent_result :=
| Reading (raw : Q)
| NoSuchProcess
| AccessDenied.

(** One process of [psutil.process_iter(["pid", "name"])], with what its
    two [cpu_percent] calls answer. *)
Record process := {
  pid : Z;
  info_name : option string;        (* p.info.get("name") *)
  prime : cpu_percent_result;       (* the first, priming call *)
  reread : cpu_percent_result       (* the call after the sleep *)
}.

(** The process table as the sampler sees it. *)
Record host := {
  cpu_count_logical : option Z;     (* psutil.cpu_count(logical=True) *)
  process_iter : list process
}.

(** A row of the result: [{'pid': .., 'name': .., 'cpu': ..}]. *)
Record row := { row_pid : Z; row_name : string; row_cpu : Q }.

(** ["cpu": max(0.0, raw / cpu_count)]. *)
Definition normalized (raw : Q) (cpu_count : Z) : Q :=
  Py.max 0%Q (raw / inject_Z cpu_count)%Q.

(** First loop: a process is kept when priming raises nothing. *)
Definition primed (p : process) : bool :=
  match prime p with
  | Reading _ => true
  | _ => false
  end.

(** Body of the second loop: a row, or nothing when the re-read raises. *)
Definition row_of (cpu_count : Z) (p : process) : option row :=
  match reread p with
  | Reading raw =>
      Some {| row_pid := pid p;
              row_name := Py.str_take 64
                            (Py.str_or (info_name p) ("pid-" +:+ Py.str (pid p)));
              row_cpu := normalized raw cpu_count |}
  | _ => None
  end.

(** [rows.sort(key=lambda r: r["cpu"], reverse=True)].  Python's sort is
    stable, also with [reverse=True]; the result of a stable sort is
    determined by its input, so an insertion sort that keeps equal keys in
    their order computes it. *)
Fixpoint insert_desc (x : row) (l : list row) : list row :=
  match l with
  | [] => [x]
  | y :: l' =>
      if Qle_bool (row_cpu y) (row_cpu x) then x :: y :: l'
      else y :: insert_desc x l'
  end.

Definition sort_desc (l : list row) : list row := foldr insert_desc [] l.

(** The rows before sorting. *)
Definition sampled_rows (h : host) : list row :=
  let cpu_count := Py.or_1 (cpu_count_logical h) in
  omap (row_of cpu_count) (List.filter primed (process_iter h)).

Definition snapshot_top_processes (h : host) (n : Z) : list row :=
  Py.slice_to n (sort_desc (sampled_rows h)).

(** The processes that raised in neither phase. *)
Definition survived (p : process) : bool :=
  primed p && match reread p with Reading _ => true | _ => false end.

Definition survivors (h : host) : nat :=
  length (List.filter survived (process_iter h)).

(** Non-increasing by ["cpu"]. *)
Definition cpu_descending (l : list row) : Prop :=
  StronglySorted (fun a b => (row_cpu b <= row_cpu a)%Q) l.

End Sampler.

(** ** CPU alert watchdog: [CPUWatchdog] *)

Module Watchdog.

Record CPUWatchdog := {
  webhook : string;
  threshold : Q;
  cooldown : Z;
  last_alert_ts : Q;      (* self._last_alert_ts *)
  over_counter : Z        (* self._over_counter *)
}.

(** [__init__(webhook, threshold, cooldown)]. *)
Definition init (webhook : string) (threshold : Q) (cooldown : Z) : CPUWatchdog :=
  {| webhook := webhook; threshold := threshold; cooldown := cooldown;
     last_alert_ts := 0%Q; over_counter := 0 |}.

(** The defaults of [__init__]: [threshold=90.0, cooldown=300]. *)
Definition init_default (webhook : string) : CPUWatchdog := init webhook 90%Q 300.

(** What one pass of the loop body reads from the outside. *)
Record cycle := {
  total : Q;                (* psutil.cpu_percent(interval=1.0) *)
  now_check : Q;            (* time.time() in the cooldown test *)
  table : Sampler.host;     (* what snapshot_top_processes(3) samples *)
  now_fired : Q             (* time.time() stored after the alert *)
}.

(** The arguments of one [_send_webhook_alert(total, top3)]. *)
Record alert := { alert_total : Q; alert_top3 : list Sampler.row }.

(** [_send_webhook_alert]: nothing is posted without a webhook; otherwise
    the payload goes to the sink (a failure of the post is swallowed). *)
Definition send_webhook_alert (w : CPUWatchdog) (a : alert) : option alert :=
  match webhook w with
  | EmptyString => None
  | _ => Some a
  end.

Definition set_counter (w : CPUWatchdog) (k : Z) : CPUWatchdog :=
  {| webhook := webhook w; threshold := threshold w; cooldown := cooldown w;
     last_alert_ts := last_alert_ts w; over_counter := k |}.

Definition set_last_alert (w : CPUWatchdog) (t : Q) : CPUWatchdog :=
  {| webhook := webhook w; threshold := threshold w; cooldown := cooldown w;
     last_alert_ts := t; over_counter := over_counter w |}.

(** The test of line 151, on the counter already incremented. *)
Definition should_fire (w : CPUWatchdog) (now : Q) : bool :=
  (2 <=? over_counter w) &&
  Py.gt (now - last_alert_ts w)%Q (inject_Z (cooldown w)).

(** One pass of the body of [run]: the new state and the alert it raised. *)
Definition run_cycle (w : CPUWatchdog) (c : cycle) : CPUWatchdog * option alert :=
  if Py.ge (total c) (threshold w) then
    let w1 := set_counter w (over_counter w + 1) in
    if should_fire w1 (now_check c) then
      let top3 := Sampler.snapshot_top_processes (table c) 3 in
      (set_last_alert w1 (now_fired c),
       Some {| alert_total := total c; alert_top3 := top3 |})
    else (w1, None)
  else (set_counter w 0, None).

(** The state after the cycles [cs]. *)
Definition run_state (w : CPUWatchdog) (cs : list cycle) : CPUWatchdog :=
  fold_left (fun w c => fst (run_cycle w c)) cs w.

(** [run]: the alert (or none) of each cycle, in order. *)
Fixpoint run (w : CPUWatchdog) (cs : list cycle) : list (option alert) :=
  match cs with
  | [] => []
  | c :: cs' => snd (run_cycle w c) :: run (fst (run_cycle w c)) cs'
  end.

(** The counter after each cycle, in order. *)
Fixpoint counters (w : CPUWatchdog) (cs : list cycle) : list Z :=
  match cs with
  | [] => []
  | c :: cs' =>
      over_counter (fst (run_cycle w c)) :: counters (fst (run_cycle w c)) cs'
  end.

(** Whether the cycle [c] raises an alert from the state [w]. *)
Definition fires (w : CPUWatchdog) (c : cycle) : bool :=
  match snd (run_cycle w c) with Some _ => true | None => false end.

(** What reaches the alert sink in the cycle [c]. *)
Definition delivered (w : CPUWatchdog) (c : cycle) : option alert :=
  match snd (run_cycle w c) with
  | Some a => send_webhook_alert w a
  | None => None
  end.

(** Which cycles fired. *)
Definition fired_flags (w : CPUWatchdog) (cs : list cycle) : list bool :=
  map (fun o => match o with Some _ => true | None => false end) (run w cs).

(** The clock readings of the cycles, in the order they are taken. *)
Fixpoint clock_readings (cs : list cycle) : list Q :=
  match cs with
  | [] => []
  | c :: cs' => now_check c :: now_fired c :: clock_readings cs'
  end.

(** The clock never goes back, starting from the stored timestamp. *)
Definition clock_monotone (w : CPUWatchdog) (cs : list cycle) : Prop :=
  StronglySorted Qle (last_alert_ts w :: clock_readings cs).

(** Is the reading of [c] a breach for [w]? *)
Definition over (w : CPUWatchdog) (c : cycle) : bool := Py.ge (total c) (threshold w).

(** No cycle of [cs] breaches right after a breach; [prev] tells whether
    the cycle before [cs] breached. *)
Fixpoint calm (w : CPUWatchdog) (prev : bool) (cs : list cycle) : bool :=
  match cs with
  | [] => true
  | c :: cs' => negb (prev && over w c) && calm w (over w c) cs'
  end.

(** No two adjacent cycles of [cs] both breach. *)
Definition no_two_consecutive_over (w : CPUWatchdog) (cs : list cycle) : bool :=
  calm w false cs.

(** Whether the last cycle of [cs] breached ([prev] when there is none). *)
Definition last_over (w : CPUWatchdog) (prev : bool) (cs : list cycle) : bool :=
  fold_left (fun _ c => over w c) cs prev.

End Watchdog.

(** ** Exceptions and the calls to the operating system *)

Module Exc.

(** The exception classes the code tells apart; all derive from
    [Exception]. *)
Inductive exn_class :=
| NoSuchProcess
| AccessDenied
| TimeoutExpired
| IndexError
| OtherException.

(** An exception value, with its [repr] (what [{e!r}] prints). *)
Record exn := { class : exn_class; repr : string }.

Inductive res (A : Type) :=
| Ret (a : A)
| Raise (e : exn).
Arguments Ret {A} a.
Arguments Raise {A} e.

(** The calls [safe_terminate_pid] makes on a process. *)
Inductive syscall :=
| SysProcess (pid : Z)               (* psutil.Process(pid) *)
| SysName (pid : Z)                  (* p.name() *)
| SysTerminate (pid : Z)             (* p.terminate() *)
| SysWait (pid : Z) (timeout : Q)    (* p.wait(timeout=timeout) *)
| SysKill (pid : Z).                 (* p.kill() *)

(** A computation: the calls it made, in order, and how it ended. *)
Definition M (A : Type) : Type := list syscall * res A.

#[export] Instance M_ret : MRet M := fun A a => ([], Ret a).

#[export] Instance M_bind : MBind M := fun A B k m =>
  match m with
  | (t, Ret a) => let '(t', r) := k a in (t ++ t', r)
  | (t, Raise e) => (t, Raise e)
  end.

(** One call, with the answer the system gives. *)
Definition call {A} (s : syscall) (answer : res A) : M A := ([s], answer).

(** [try: m  except cls: h]. *)
Definition try_except {A} (m : M A) (cls : exn_class) (h : M A)
    (cls_eqb : exn_class -> exn_class -> bool) : M A :=
  match m with
  | (t, Raise e) =>
      if cls_eqb (class e) cls then let '(t', r) := h in (t ++ t', r)
      else (t, Raise e)
  | done => done
  end.

Definition class_eqb (a b : exn_class) : bool :=
  match a, b with
  | NoSuchProcess, NoSuchProcess
  | AccessDenied, AccessDenied
  | TimeoutExpired, TimeoutExpired
  | IndexError, IndexError
  | OtherException, OtherException => true
  | _, _ => false
  end.

End Exc.

(** ** Termination safeguard: [safe_terminate_pid] *)

Module Safeguard.
Import Exc.

Definition SYSTEM_NAMES : gset string :=
  {[ "System Idle Process"; "System"; "Registry"; "MemCompression" ]}.

Definition PROTECTED_PIDS : gset Z := {[ 0; 4 ]}.

(** What the system answers to each call on one pid. *)
Record os_process := {
  os_Process : res unit;          (* psutil.Process(pid) *)
  os_name : res string;           (* p.name() *)
  os_terminate : res unit;        (* p.terminate() *)
  os_wait : Q -> res unit;        (* p.wait(timeout): TimeoutExpired when still alive *)
  os_kill : res unit              (* p.kill() *)
}.

Definition os : Type := Z -> os_process.

(** The default of the [timeout] parameter. *)
Definition default_timeout : Q := 3%Q.

(** The body of the outer [try]. *)
Definition attempt (o : os) (pid : Z) (timeout : Q) : M (bool * string) :=
  if bool_decide (pid ∈ PROTECTED_PIDS) then
    mret (false, "Refusing to terminate a protected system process.")
  else
    _ ← call (SysProcess pid) (os_Process (o pid));
    name ← call (SysName pid) (os_name (o pid));
    if bool_decide (name ∈ SYSTEM_NAMES) then
      mret (false, "Refusing to terminate critical process: " +:+ name +:+ ".")
    else
      _ ← call (SysTerminate pid) (os_terminate (o pid));
      _ ← try_except (call (SysWait pid timeout) (os_wait (o pid) timeout))
            TimeoutExpired
            (call (SysKill pid) (os_kill (o pid)))
            class_eqb;
      mret (true, "Terminated **" +:+ name +:+ "** (PID " +:+ Py.str pid +:+ ").").

(** The three [except] clauses of the outer [try], in their order. *)
Definition handler (e : exn) : bool * string :=
  match class e with
  | NoSuchProcess => (false, "Process no longer exists.")
  | AccessDenied => (false, "Access denied. Run the bot with sufficient privileges.")
  | _ => (false, "Unexpected error: " +:+ repr e)
  end.

Definition safe_terminate_pid (o : os) (pid : Z) (timeout : Q) : M (bool * string) :=
  match attempt o pid timeout with
  | (t, Ret v) => (t, Ret v)
  | (t, Raise e) => (t, Ret (handler e))
  end.

End Safeguard.

(** ** History window: [CPU_HISTORY] and [_cpu_history_collector] *)

Module History.

(** [collections.deque(maxlen=...)]. *)
Record deque (A : Type) := { maxlen : nat; items : list A }.
Arguments maxlen {A} d.
Arguments items {A} d.

Definition deque_new {A} (maxlen : nat) : deque A :=
  {| maxlen := maxlen; items := [] |}.

(** [d.append(x)]: add on the right, then drop on the left when the
    bound is exceeded. *)
Definition append {A} (d : deque A) (x : A) : deque A :=
  let l := items d ++ [x] in
  {| maxlen := maxlen d;
     items := if (maxlen d <? length l)%nat then tail l else l |}.

(** [CPU_HISTORY = deque(maxlen=150)]. *)
Definition CPU_HISTORY : deque Q := deque_new 150.

(** [_cpu_history_collector]: one append per reading, in order. *)
Definition cpu_history_collector (h : deque Q) (readings : list Q) : deque Q :=
  fold_left append readings h.

End History.

(** ** The [/topcpu] and [/terminate] commands *)

Module Commands.
Import Exc.

(** An entry of [_last_topcpu_by_user]: [{'at': ts, 'rows': rows}]. *)
Record cache_entry := { at_ : Q; rows : list Sampler.row }.

(** What [/terminate] answers. *)
Inductive reply :=
| NoRecentList
| IndexOutOfRange (have : nat)
| TerminateResult (ok : bool) (msg : string).

(** The store of [/topcpu]: the caller's entry is overwritten. *)
Definition topcpu (cache : gmap Z cache_entry) (h : Sampler.host) (now : Q)
    (user_id : Z) : gmap Z cache_entry :=
  <[ user_id := {| at_ := now; rows := Sampler.snapshot_top_processes h 10 |} ]> cache.

(** The body of [terminate(interaction, index)]. *)
Definition terminate (cache : gmap Z cache_entry) (o : Safeguard.os) (now : Q)
    (user_id : Z) (index : Z) : M reply :=
  match cache !! user_id with
  | None => mret NoRecentList
  | Some entry =>
      if Py.gt (now - at_ entry)%Q 600%Q then mret NoRecentList
      else
        let rows := rows entry in
        if Z.of_nat (length rows) <? index then
          mret (IndexOutOfRange (length rows))
        else
          match Py.index rows (index - 1) with
          | None =>
              ([], Raise {| class := IndexError;
                            repr := "IndexError('list index out of range')" |})
          | Some target =>
              '(ok, msg) ← Safeguard.safe_terminate_pid o (Sampler.row_pid target)
                             Safeguard.default_timeout;
              mret (TerminateResult ok msg)
          end
  end.

(** The lookup was refused as out of range, and nothing was done to any
    process. *)
Definition rejected_out_of_range (r : M reply) : Prop :=
  ∃ have, r = ([], Ret (IndexOutOfRange have)).

End Commands.

(** ** Display helpers: [_uptime] and [_bar] *)

Module Display.

(** [int(x)] on a float: truncation toward zero. *)
Definition int_of_float (x : Q) : Z :=
  if Qle_bool 0 x then Qfloor x else Qceiling x.

(** [round(x)] with one argument: the nearest integer, a tie going to the
    even one. *)
Definition round (x : Q) : Z :=
  let f := Qfloor x in
  match (x - inject_Z f ?= 1 # 2)%Q with
  | Lt => f
  | Gt => f + 1
  | Eq => if Z.even f then f else f + 1
  end.

(** [s * n] on a string: empty for [n <= 0]. *)
Fixpoint str_rep (s : string) (k : nat) : string :=
  match k with
  | O => EmptyString
  | S k' => s +:+ str_rep s k'
  end.

Definition str_mul (s : string) (n : Z) : string := str_rep s (Z.to_nat n).

(** The three [divmod] of [_uptime], on the whole seconds [s]. *)
Definition uptime_fields (s : Z) : Z * Z * Z * Z :=
  let d := s / 86400 in
  let s := s mod 86400 in
  let h := s / 3600 in
  let s := s mod 3600 in
  let m := s / 60 in
  let s := s mod 60 in
  (d, h, m, s).

(** [_uptime()], given [time.time()] and [BOT_START]. *)
Definition _uptime (now BOT_START : Q) : string :=
  let '(d, h, m, s) := uptime_fields (int_of_float (now - BOT_START)%Q) in
  Py.str d +:+ "d " +:+ Py.str h +:+ "h " +:+ Py.str m +:+ "m " +:+ Py.str s +:+ "s".

(** [filled] of [_bar]. *)
Definition filled (pct : Q) (length : Z) : Z :=
  Z.max 0 (Z.min length (round (inject_Z length * pct / 100)%Q)).

(** [_bar(pct, length)]. *)
Definition _bar (pct : Q) (length : Z) : string :=
  str_mul "▰" (filled pct length) +:+ str_mul "▱" (length - filled pct length).

(** The default [length=20]. *)
Definition bar_default (pct : Q) : string := _bar pct 20.

End Display.

(** ** The status panel: [_build_status_embed] *)

Module Status.







End Status.

(** ** The live updates of [/status] *)

Module StatusCommand.

(** The loop [for _ in range(rounds)]: each round edits the message;
    [edit_ok i] tells whether the edit of round [i] goes through ([false]
    when it raises [discord.HTTPException], which breaks the loop).  The
    result lists the edits attempted, with their outcome. *)
Fixpoint live_updates (rounds : nat) (edit_ok : nat → bool) (i : nat) : list bool :=
  match rounds with
  | O => []
  | S rounds' =>
      if edit_ok i then true :: live_updates rounds' edit_ok (S i)
      else [false]
  end.

(** [status]: [range(150)], one round every 2 seconds. *)
Definition status (edit_ok : nat → bool) : list bool := live_updates 150 edit_ok 0.

End StatusCommand.

(** ** Vocabulary of the statements *)

(** The pid a call is made on. *)
Definition syscall_pid (s : Exc.syscall) : Z :=
  match s with
  | Exc.SysProcess pid | Exc.SysName pid | Exc.SysTerminate pid
  | Exc.SysWait pid _ | Exc.SysKill pid => pid
  end.

(** The calls that end a process. *)
Definition destructive (s : Exc.syscall) : bool :=
  match s with
  | Exc.SysTerminate _ | Exc.SysKill _ => true
  | _ => false
  end.

(** The forceful one among them. *)
Definition is_kill (s : Exc.syscall) : bool :=
  match s with
  | Exc.SysKill _ => true
  | _ => false
  end.

(** The message of a successful termination. *)
Definition terminated_message (name : string) (pid : Z) : string :=
  "Terminated **" +:+ name +:+ "** (PID " +:+ Py.str pid +:+ ").".

(** The paths through the body of [safe_terminate_pid]'s [try], by what the
    system answers: the calls made, and the value returned or the exception
    that leaves the body. *)
Inductive attempt_path (o : Safeguard.os) (pid : Z) (timeout : Q)
    : list Exc.syscall → Exc.res (bool * string) → Prop :=
| path_protected :
    pid ∈ Safeguard.PROTECTED_PIDS →
    attempt_path o pid timeout []
      (Exc.Ret (false, "Refusing to terminate a protected system process."))
| path_process_raises e :
    pid ∉ Safeguard.PROTECTED_PIDS →
    Safeguard.os_Process (o pid) = Exc.Raise e →
    attempt_path o pid timeout [Exc.SysProcess pid] (Exc.Raise e)
| path_name_raises e :
    pid ∉ Safeguard.PROTECTED_PIDS →
    Safeguard.os_Process (o pid) = Exc.Ret () →
    Safeguard.os_name (o pid) = Exc.Raise e →
    attempt_path o pid timeout [Exc.SysProcess pid; Exc.SysName pid] (Exc.Raise e)
| path_critical name :
    pid ∉ Safeguard.PROTECTED_PIDS →
    Safeguard.os_Process (o pid) = Exc.Ret () →
    Safeguard.os_name (o pid) = Exc.Ret name →
    name ∈ Safeguard.SYSTEM_NAMES →
    attempt_path o pid timeout [Exc.SysProcess pid; Exc.SysName pid]
      (Exc.Ret (false, "Refusing to terminate critical process: " +:+ name +:+ "."))
| path_terminate_raises name e :
    pid ∉ Safeguard.PROTECTED_PIDS →
    Safeguard.os_Process (o pid) = Exc.Ret () →
    Safeguard.os_name (o pid) = Exc.Ret name →
    name ∉ Safeguard.SYSTEM_NAMES →
    Safeguard.os_terminate (o pid) = Exc.Raise e →
    attempt_path o pid timeout
      [Exc.SysProcess pid; Exc.SysName pid; Exc.SysTerminate pid] (Exc.Raise e)
| path_exited name :
    pid ∉ Safeguard.PROTECTED_PIDS →
    Safeguard.os_Process (o pid) = Exc.Ret () →
    Safeguard.os_name (o pid) = Exc.Ret name →
    name ∉ Safeguard.SYSTEM_NAMES →
    Safeguard.os_terminate (o pid) = Exc.Ret () →
    Safeguard.os_wait (o pid) timeout = Exc.Ret () →
    attempt_path o pid timeout
      [Exc.SysProcess pid; Exc.SysName pid; Exc.SysTerminate pid;
       Exc.SysWait pid timeout]
      (Exc.Ret (true, terminated_message name pid))
| path_wait_raises name e :
    pid ∉ Safeguard.PROTECTED_PIDS →
    Safeguard.os_Process (o pid) = Exc.Ret () →
    Safeguard.os_name (o pid) = Exc.Ret name →
    name ∉ Safeguard.SYSTEM_NAMES →
    Safeguard.os_terminate (o pid) = Exc.Ret () →
    Safeguard.os_wait (o pid) timeout = Exc.Raise e →
    Exc.class e ≠ Exc.TimeoutExpired →
    attempt_path o pid timeout
      [Exc.SysProcess pid; Exc.SysName pid; Exc.SysTerminate pid;
       Exc.SysWait pid timeout]
      (Exc.Raise e)
| path_killed name e :
    pid ∉ Safeguard.PROTECTED_PIDS →
    Safeguard.os_Process (o pid) = Exc.Ret () →
    Safeguard.os_name (o pid) = Exc.Ret name →
    name ∉ Safeguard.SYSTEM_NAMES →
    Safeguard.os_terminate (o pid) = Exc.Ret () →
    Safeguard.os_wait (o pid) timeout = Exc.Raise e →
    Exc.class e = Exc.TimeoutExpired →
    Safeguard.os_kill (o pid) = Exc.Ret () →
    attempt_path o pid timeout
      [Exc.SysProcess pid; Exc.SysName pid; Exc.SysTerminate pid;
       Exc.SysWait pid timeout; Exc.SysKill pid]
      (Exc.Ret (true, terminated_message name pid))
| path_kill_raises name e e' :
    pid ∉ Safeguard.PROTECTED_PIDS →
    Safeguard.os_Process (o pid) = Exc.Ret () →
    Safeguard.os_name (o pid) = Exc.Ret name →
    name ∉ Safeguard.SYSTEM_NAMES →
    Safeguard.os_terminate (o pid) = Exc.Ret () →
    Safeguard.os_wait (o pid) timeout = Exc.Raise e →
    Exc.class e = Exc.TimeoutExpired →
    Safeguard.os_kill (o pid) = Exc.Raise e' →
    attempt_path o pid timeout
      [Exc.SysProcess pid; Exc.SysName pid; Exc.SysTerminate pid;
       Exc.SysWait pid timeout; Exc.SysKill pid]
      (Exc.Raise e').

(** The number of breaches at the end of [cs], read from the last cycle
    backwards. *)
Fixpoint leading_over (w : Watchdog.CPUWatchdog) (cs : list Watchdog.cycle) : nat :=
  match cs with
  | [] => O
  | c :: cs' => if Watchdog.over w c then S (leading_over w cs') else O
  end.

Definition trailing_over (w : Watchdog.CPUWatchdog) (cs : list Watchdog.cycle) : nat :=
  leading_over w (rev cs).

(** Two watchdog states that differ at most in the webhook. *)
Definition same_machine (w w' : Watchdog.CPUWatchdog) : Prop :=
  Watchdog.threshold w = Watchdog.threshold w'
  ∧ Watchdog.cooldown w = Watchdog.cooldown w'
  ∧ Watchdog.last_alert_ts w = Watchdog.last_alert_ts w'
  ∧ Watchdog.over_counter w = Watchdog.over_counter w'.

(** What reaches the alert sink in each cycle of a run: the alert of the
    cycle passed through [_send_webhook_alert]. *)
Definition deliveries (w : Watchdog.CPUWatchdog) (cs : list Watchdog.cycle)
    : list (option Watchdog.alert) :=
  map (fun o => match o with
                | Some a => Watchdog.send_webhook_alert w a
                | None => None
                end)
      (Watchdog.run w cs).

(** * Concrete inputs

    The process tables, clocks and hosts on which the statements below are
    evaluated. *)

(** Two processes, both sampled in both phases. *)
Definition two_processes : Sampler.host :=
  {| Sampler.cpu_count_logical := Some 2;
     Sampler.process_iter :=
       [ {| Sampler.pid := 11; Sampler.info_name := Some "a";
            Sampler.prime := Sampler.Reading 0; Sampler.reread := Sampler.Reading 40 |};
         {| Sampler.pid := 22; Sampler.info_name := Some "b";
            Sampler.prime := Sampler.Reading 0; Sampler.reread := Sampler.Reading 120 |} ] |}.

(** A cycle of a run at the fixed cadence of 5 seconds that starts at [t0]:
    the reading is back one second into the cycle, and an alert is stamped
    one more second later, after the sampler's sleep. *)
Definition cycle_at (t0 : Q) (k : Z) (reading : Q) : Watchdog.cycle :=
  {| Watchdog.total := reading;
     Watchdog.now_check := (t0 + 5 * inject_Z k + 1)%Q;
     Watchdog.table := two_processes;
     Watchdog.now_fired := (t0 + 5 * inject_Z k + 2)%Q |}.

Fixpoint fixed_cadence (t0 : Q) (k : Z) (readings : list Q) : list Watchdog.cycle :=
  match readings with
  | [] => []
  | r :: rs => cycle_at t0 k r :: fixed_cadence t0 (k + 1) rs
  end.

(** The readings 0, 1, ..., n-1. *)
Definition ramp (n : nat) : list Q := map (fun k => inject_Z (Z.of_nat k)) (seq 0 n).

(** Three hosts: one where no process exists any more, one whose processes
    ignore the graceful request, one whose processes exit on it. *)
Definition gone {A} : Exc.res A :=
  Exc.Raise {| Exc.class := Exc.NoSuchProcess;
               Exc.repr := "psutil.NoSuchProcess()" |}.

Definition os_gone : Safeguard.os := fun pid =>
  {| Safeguard.os_Process := gone;
     Safeguard.os_name := gone;
     Safeguard.os_terminate := gone;
     Safeguard.os_wait := fun _ => gone;
     Safeguard.os_kill := gone |}.

Definition os_slow : Safeguard.os := fun pid =>
  {| Safeguard.os_Process := Exc.Ret ();
     Safeguard.os_name := Exc.Ret (if pid =? 11 then "a" else "b");
     Safeguard.os_terminate := Exc.Ret ();
     Safeguard.os_wait := fun _ =>
       Exc.Raise {| Exc.class := Exc.TimeoutExpired;
                    Exc.repr := "psutil.TimeoutExpired()" |};
     Safeguard.os_kill := Exc.Ret () |}.

Definition os_easy : Safeguard.os := fun pid =>
  {| Safeguard.os_Process := Exc.Ret ();
     Safeguard.os_name := Exc.Ret (if pid =? 11 then "a" else "b");
     Safeguard.os_terminate := Exc.Ret ();
     Safeguard.os_wait := fun _ => Exc.Ret ();
     Safeguard.os_kill := Exc.Ret () |}.

(** The cache after caller 7 ran [/topcpu] at time 1000 on the two
    processes: the rows are pid 22 (60%) and pid 11 (20%), in this order. *)
Definition cache_of_7 : gmap Z Commands.cache_entry :=
  Commands.topcpu ∅ two_processes 1000 7.

(** * Properties *)

(** ** Comparisons and [max] *)

Lemma ge_spec (a b : Q) : Py.ge a b = true ↔ (b <= a)%Q.
Proof. unfold Py.ge. apply Qle_bool_iff. Qed.

Lemma gt_spec (a b : Q) : Py.gt a b = true ↔ (b < a)%Q.
Proof.
  unfold Py.gt. rewrite negb_true_iff. split.
  - intros H. apply Qnot_le_lt. intros Hle.
    apply Qle_bool_iff in Hle. congruence.
  - intros H. destruct (Qle_bool a b) eqn:E; [|reflexivity].
    apply Qle_bool_iff in E. exfalso. exact (Qlt_not_le _ _ H E).
Qed.

Lemma gt_false (a b : Q) : Py.gt a b = false ↔ (a <= b)%Q.
Proof.
  unfold Py.gt. rewrite negb_false_iff. apply Qle_bool_iff.
Qed.






(** ** The sampler's sort and slice *)

Section SortDesc.
Import Sampler.

Lemma insert_desc_length x l : length (insert_desc x l) = S (length l).
Proof.
  induction l as [|y l IH]; simpl; [reflexivity|].
  destruct (Qle_bool _ _); simpl; congruence.
Qed.

Lemma sort_desc_length l : length (sort_desc l) = length l.
Proof.
  induction l as [|x l IH]; simpl; [reflexivity|].
  rewrite insert_desc_length. congruence.
Qed.

Lemma insert_desc_perm x l : Permutation (x :: l) (insert_desc x l).
Proof.
  induction l as [|y l IH]; simpl; [reflexivity|].
  destruct (Qle_bool _ _); [reflexivity|].
  rewrite perm_swap. apply perm_skip, IH.
Qed.

Lemma sort_desc_perm l : Permutation l (sort_desc l).
Proof.
  induction l as [|x l IH]; simpl; [reflexivity|].
  rewrite <- insert_desc_perm. apply perm_skip, IH.
Qed.

Lemma insert_desc_Forall (P : row → Prop) x l :
  P x → Forall P l → Forall P (insert_desc x l).
Proof.
  intros Hx Hl. eapply Permutation_Forall; [apply insert_desc_perm|].
  constructor; assumption.
Qed.

Lemma insert_desc_sorted x l :
  cpu_descending l → cpu_descending (insert_desc x l).
Proof.
  unfold cpu_descending.
  induction 1 as [|y l Hs IH Hy]; simpl.
  - repeat constructor.
  - destruct (Qle_bool (row_cpu y) (row_cpu x)) eqn:E.
    + apply Qle_bool_iff in E.
      constructor; [constructor; assumption|].
      constructor; [exact E|].
      eapply Forall_impl; [exact Hy|].
      intros z Hz. simpl in *. eapply Qle_trans; eassumption.
    + constructor; [exact IH|].
      apply insert_desc_Forall; [|exact Hy].
      apply Qlt_le_weak, Qnot_le_lt. intros Hle.
      apply Qle_bool_iff in Hle. congruence.
Qed.

Lemma sort_desc_sorted l : cpu_descending (sort_desc l).
Proof.
  induction l as [|x l IH]; simpl.
  - constructor.
  - apply insert_desc_sorted, IH.
Qed.

Lemma take_sorted k l : cpu_descending l → cpu_descending (take k l).
Proof.
  unfold cpu_descending. intros H. revert k.
  induction H as [|y l Hs IH Hy]; intros [|k]; simpl; try constructor.
  - apply IH.
  - apply Forall_take, Hy.
Qed.

Lemma slice_to_sorted n l : cpu_descending l → cpu_descending (Py.slice_to n l).
Proof.
  intros H. unfold Py.slice_to. destruct (0 <=? n); apply take_sorted, H.
Qed.

Lemma sampled_rows_length h : length (sampled_rows h) = survivors h.
Proof.
  unfold sampled_rows, survivors.
  induction (process_iter h) as [|p l IH]; simpl; [reflexivity|].
  unfold survived at 1. destruct (primed p); simpl; [|exact IH].
  unfold row_of at 1.
  destruct (reread p); simpl; first [exact IH | f_equal; exact IH].
Qed.

Lemma slice_to_length_nonneg {A} n (l : list A) :
  0 ≤ n → Z.of_nat (length (Py.slice_to n l)) = Z.min n (Z.of_nat (length l)).
Proof.
  intros Hn. unfold Py.slice_to.
  destruct (Z.leb_spec 0 n); [|lia].
  rewrite length_take. lia.
Qed.

End SortDesc.

(** C4, as stated, fails for a negative [topN]: [rows[:-1]] of two rows has
    one row, more than [min(-1, 2)]. *)
Lemma C4_negative_topN_counterexample :
  ¬ (Z.of_nat (length (Sampler.snapshot_top_processes two_processes (-1)))
     ≤ Z.min (-1) (Z.of_nat (Sampler.survivors two_processes))).
Proof. vm_compute. intros H. apply H. reflexivity. Qed.

(** C4, amended.  For every process table and every [topN], the snapshot is
    sorted non-increasing by normalized CPU; for every [topN >= 0] its
    length is at most [min(topN, survivors)], the survivors being the
    processes that raised in neither sampling phase. *)
Theorem C4_snapshot_sorted_and_bounded (h : Sampler.host) (n : Z) :
  Sampler.cpu_descending (Sampler.snapshot_top_processes h n)
  ∧ (0 ≤ n →
     Z.of_nat (length (Sampler.snapshot_top_processes h n))
     ≤ Z.min n (Z.of_nat (Sampler.survivors h))).
Proof.
  unfold Sampler.snapshot_top_processes. split.
  - apply slice_to_sorted, sort_desc_sorted.
  - intros Hn. rewrite slice_to_length_nonneg by exact Hn.
    rewrite sort_desc_length, sampled_rows_length. lia.
Qed.

Lemma C4_snapshot_sorted_and_bounded_witness :
  Sampler.cpu_descending (Sampler.snapshot_top_processes two_processes 1)
  ∧ Z.of_nat (length (Sampler.snapshot_top_processes two_processes 1))
    ≤ Z.min 1 (Z.of_nat (Sampler.survivors two_processes)).
Proof.
  destruct (C4_snapshot_sorted_and_bounded two_processes 1) as [Hs Hl].
  split; [exact Hs | apply Hl; lia].
Defined.

(** ** The watchdog's cycle *)

Section WatchdogCycle.
Import Watchdog.

Lemma run_cycle_threshold w c : threshold (fst (run_cycle w c)) = threshold w.
Proof.
  unfold run_cycle. destruct (Py.ge _ _); [|reflexivity].
  destruct (should_fire _ _); reflexivity.
Qed.

Lemma run_cycle_cooldown w c : cooldown (fst (run_cycle w c)) = cooldown w.
Proof.
  unfold run_cycle. destruct (Py.ge _ _); [|reflexivity].
  destruct (should_fire _ _); reflexivity.
Qed.

Lemma run_cycle_counter w c :
  over_counter (fst (run_cycle w c))
  = if Py.ge (total c) (threshold w) then over_counter w + 1 else 0.
Proof.
  unfold run_cycle. destruct (Py.ge _ _); [|reflexivity].
  destruct (should_fire _ _); reflexivity.
Qed.

(** The alert is raised exactly under the test of the source. *)
Lemma fires_iff w c :
  fires w c = true ↔
  (threshold w <= total c)%Q
  ∧ 2 ≤ over_counter w + 1
  ∧ (inject_Z (cooldown w) < now_check c - last_alert_ts w)%Q.
Proof.
  unfold fires, run_cycle.
  destruct (Py.ge (total c) (threshold w)) eqn:Hge.
  - apply ge_spec in Hge. unfold should_fire. simpl.
    destruct (Z.leb_spec 2 (over_counter w + 1)); simpl.
    + destruct (Py.gt _ _) eqn:Hgt; simpl.
      * apply gt_spec in Hgt. tauto.
      * apply gt_false in Hgt. split; [discriminate|].
        intros (_ & _ & Hlt). exfalso. exact (Qlt_not_le _ _ Hlt Hgt).
    + split; [discriminate|]. intros (_ & ? & _). lia.
  - simpl. split; [discriminate|]. intros (Hle & _).
    apply ge_spec in Hle. congruence.
Qed.

Lemma last_alert_after w c :
  last_alert_ts (fst (run_cycle w c))
  = if fires w c then now_fired c else last_alert_ts w.
Proof.
  unfold fires, run_cycle. destruct (Py.ge _ _); [|reflexivity].
  destruct (should_fire _ _); reflexivity.
Qed.

Lemma run_state_app w l l' :
  run_state w (l ++ l') = run_state (run_state w l) l'.
Proof. unfold run_state. apply fold_left_app. Qed.

Lemma run_state_cooldown w cs : cooldown (run_state w cs) = cooldown w.
Proof.
  revert w. induction cs as [|c cs IH]; intros w; [reflexivity|].
  change (run_state w (c :: cs)) with (run_state (fst (run_cycle w c)) cs).
  rewrite IH. apply run_cycle_cooldown.
Qed.

Lemma run_state_threshold w cs : threshold (run_state w cs) = threshold w.
Proof.
  revert w. induction cs as [|c cs IH]; intros w; [reflexivity|].
  change (run_state w (c :: cs)) with (run_state (fst (run_cycle w c)) cs).
  rewrite IH. apply run_cycle_threshold.
Qed.

Lemma clock_readings_app l l' :
  clock_readings (l ++ l') = clock_readings l ++ clock_readings l'.
Proof. induction l as [|c l IH]; simpl; [reflexivity|]. now rewrite IH. Qed.

(** The stored timestamp stays above any bound that the clock respects. *)
Lemma last_alert_lower_bound (t : Q) cs : ∀ w,
  (t <= last_alert_ts w)%Q →
  Forall (fun x => (t <= x)%Q) (clock_readings cs) →
  (t <= last_alert_ts (run_state w cs))%Q.
Proof.
  induction cs as [|c cs IH]; intros w Hw Hall; [exact Hw|].
  change (run_state w (c :: cs)) with (run_state (fst (run_cycle w c)) cs).
  simpl in Hall. inversion Hall as [|? ? _ Hall']; subst.
  inversion Hall' as [|? ? Hfired Hrest]; subst.
  apply IH; [|exact Hrest].
  rewrite last_alert_after. destruct (fires w c); assumption.
Qed.

Lemma delivered_fires w c a : delivered w c = Some a → fires w c = true.
Proof.
  unfold delivered, fires. destruct (snd (run_cycle w c)); [reflexivity|discriminate].
Qed.

Lemma clock_readings_split (t : Q) pre c1 mid rest :
  t :: clock_readings (pre ++ c1 :: mid ++ rest)
  = (t :: clock_readings pre ++ [now_check c1])
    ++ now_fired c1 :: clock_readings mid ++ clock_readings rest.
Proof.
  rewrite clock_readings_app. simpl. rewrite clock_readings_app.
  rewrite <- app_assoc. reflexivity.
Qed.

Lemma sorted_after (x : Q) l1 l2 l3 :
  StronglySorted Qle (l1 ++ x :: l2 ++ l3) → Forall (Qle x) l2.
Proof.
  intros H. apply StronglySorted_app_1_r in H.
  apply StronglySorted_inv in H. destruct H as [_ H].
  apply Forall_app in H. apply H.
Qed.

End WatchdogCycle.

(** C1.  In every execution of the watchdog loop, a cycle raises an alert
    only when the counter of consecutive breaches is at least 2 and the time
    since the stored last-alert timestamp strictly exceeds the cooldown;
    what reaches the sink is one of these alerts; and when the clock never
    goes back, any two alerts of the execution are more than a cooldown
    apart, also under continuous breach. *)
Theorem C1_alert_gating (w0 : Watchdog.CPUWatchdog) (cs : list Watchdog.cycle) :
  (∀ pre c post, cs = pre ++ c :: post →
     let w := Watchdog.run_state w0 pre in
     Watchdog.fires w c = true →
       2 ≤ Watchdog.over_counter (fst (Watchdog.run_cycle w c))
       ∧ (inject_Z (Watchdog.cooldown w0)
          < Watchdog.now_check c - Watchdog.last_alert_ts w)%Q)
  ∧ (∀ pre c post a, cs = pre ++ c :: post →
     Watchdog.delivered (Watchdog.run_state w0 pre) c = Some a →
     Watchdog.fires (Watchdog.run_state w0 pre) c = true)
  ∧ (Watchdog.clock_monotone w0 cs →
     ∀ pre c1 mid c2 post, cs = pre ++ c1 :: mid ++ c2 :: post →
       Watchdog.fires (Watchdog.run_state w0 pre) c1 = true →
       Watchdog.fires (Watchdog.run_state w0 (pre ++ c1 :: mid)) c2 = true →
       (inject_Z (Watchdog.cooldown w0)
        < Watchdog.now_check c2 - Watchdog.now_fired c1)%Q).
Proof.
  split; [|split].
  - intros pre c post _ w Hf. apply fires_iff in Hf.
    destruct Hf as (Hover & Hcnt & Hcd).
    rewrite run_cycle_counter.
    apply ge_spec in Hover. rewrite Hover.
    subst w. rewrite run_state_cooldown in Hcd. auto.
  - intros pre c post a _. apply delivered_fires.
  - intros Hmono pre c1 mid c2 post -> Hf1 Hf2.
    set (w := Watchdog.run_state w0 pre) in *.
    set (w1 := fst (Watchdog.run_cycle w c1)).
    assert (Hw1 : Watchdog.last_alert_ts w1 = Watchdog.now_fired c1).
    { subst w1. rewrite last_alert_after, Hf1. reflexivity. }
    assert (Hrun : Watchdog.run_state w0 (pre ++ c1 :: mid)
                   = Watchdog.run_state w1 mid).
    { rewrite run_state_app. reflexivity. }
    rewrite Hrun in Hf2. apply fires_iff in Hf2.
    destruct Hf2 as (_ & _ & Hcd).
    rewrite run_state_cooldown in Hcd.
    subst w1. rewrite run_cycle_cooldown in Hcd.
    subst w. rewrite run_state_cooldown in Hcd.
    assert (Hlb : (Watchdog.now_fired c1
                   <= Watchdog.last_alert_ts
                        (Watchdog.run_state
                           (fst (Watchdog.run_cycle (Watchdog.run_state w0 pre) c1))
                           mid))%Q).
    { apply last_alert_lower_bound.
      - rewrite Hw1. apply Qle_refl.
      - unfold Watchdog.clock_monotone in Hmono.
        rewrite clock_readings_split in Hmono.
        eapply sorted_after, Hmono. }
    eapply Qlt_le_trans; [exact Hcd|].
    apply Qplus_le_r, Qopp_le_compat, Hlb.
Qed.

(** Five breaches in a row at the fixed cadence, with a cooldown of 10
    seconds: the second and the fifth cycle raise an alert. *)
Lemma C1_alert_gating_witness :
  let w0 := Watchdog.init "hook" 90 10 in
  let cs := fixed_cadence 1000 0 [95; 95; 95; 95; 95]%Q in
  Watchdog.fired_flags w0 cs = [false; true; false; false; true]
  ∧ 2 ≤ Watchdog.over_counter
          (fst (Watchdog.run_cycle (Watchdog.run_state w0 (take 1 cs))
                  (cycle_at 1000 1 95)))
  ∧ (inject_Z 10 < Watchdog.now_check (cycle_at 1000 4 95)
                   - Watchdog.now_fired (cycle_at 1000 1 95))%Q.
Proof.
  intros w0 cs.
  destruct (C1_alert_gating w0 cs) as (Honly & _ & Hapart).
  split; [reflexivity|split].
  - apply (Honly [cycle_at 1000 0 95] (cycle_at 1000 1 95)
             (fixed_cadence 1000 2 [95; 95; 95]%Q)); reflexivity.
  - apply (Hapart ltac:(repeat constructor; apply Qle_bool_imp_le; reflexivity)
             [cycle_at 1000 0 95] (cycle_at 1000 1 95)
             (fixed_cadence 1000 2 [95; 95]%Q) (cycle_at 1000 4 95) []);
      reflexivity.
Defined.

(** C2.  In every cycle a reading at or above the threshold increments the
    counter, a reading strictly below it resets the counter to 0, and a
    cycle that raises an alert leaves the counter incremented (not reset);
    for the readings 95, 95, 50, 95, 95 with threshold 90, whatever the
    clock and the cooldown, the counter is 1, 2, 0, 1, 2. *)
Theorem C2_hysteresis_counter (w : Watchdog.CPUWatchdog) (c : Watchdog.cycle) :
  ((Watchdog.threshold w <= Watchdog.total c)%Q →
     Watchdog.over_counter (fst (Watchdog.run_cycle w c))
     = Watchdog.over_counter w + 1)
  ∧ ((Watchdog.total c < Watchdog.threshold w)%Q →
     Watchdog.over_counter (fst (Watchdog.run_cycle w c)) = 0)
  ∧ (Watchdog.fires w c = true →
     Watchdog.over_counter (fst (Watchdog.run_cycle w c))
     = Watchdog.over_counter w + 1)
  ∧ (∀ webhook cooldown cs,
     map Watchdog.total cs = [95; 95; 50; 95; 95]%Q →
     Watchdog.counters (Watchdog.init webhook 90 cooldown) cs = [1; 2; 0; 1; 2]).
Proof.
  repeat split.
  - intros H. apply ge_spec in H. rewrite run_cycle_counter, H. reflexivity.
  - intros H. rewrite run_cycle_counter.
    destruct (Py.ge _ _) eqn:E; [|reflexivity].
    apply ge_spec in E. exfalso. exact (Qlt_not_le _ _ H E).
  - intros H. apply fires_iff in H. destruct H as (H & _).
    apply ge_spec in H. rewrite run_cycle_counter, H. reflexivity.
  - intros webhook cooldown cs Hcs.
    destruct cs as [|c1 [|c2 [|c3 [|c4 [|c5 [|c6 cs]]]]]]; try discriminate Hcs.
    simpl in Hcs. injection Hcs as H1 H2 H3 H4 H5.
    simpl. rewrite !run_cycle_counter, !run_cycle_threshold.
    simpl. rewrite H1, H2, H3, H4, H5. reflexivity.
Qed.

Lemma C2_hysteresis_counter_witness :
  Watchdog.counters (Watchdog.init "hook" 90 300)
    (fixed_cadence 1000 0 [95; 95; 50; 95; 95]%Q) = [1; 2; 0; 1; 2]
  ∧ Watchdog.over_counter
      (fst (Watchdog.run_cycle (Watchdog.init "hook" 90 300) (cycle_at 1000 0 50))) = 0.
Proof.
  split.
  - apply (C2_hysteresis_counter (Watchdog.init "hook" 90 300) (cycle_at 1000 0 95)).
    reflexivity.
  - apply (C2_hysteresis_counter (Watchdog.init "hook" 90 300) (cycle_at 1000 0 50)).
    reflexivity.
Defined.

(** ** The end-to-end run of the specification *)

Section EndToEnd.
Import Watchdog.

Lemma fired_flags_cons w c cs :
  fired_flags w (c :: cs) = fires w c :: fired_flags (fst (run_cycle w c)) cs.
Proof. reflexivity. Qed.

Lemma fires_needs_two w c : over_counter w < 1 → fires w c = false.
Proof.
  intros Hk. destruct (fires w c) eqn:E; [|reflexivity].
  apply fires_iff in E. lia.
Qed.

Lemma fires_needs_breach w c :
  (total c < threshold w)%Q → fires w c = false.
Proof.
  intros Hlt. destruct (fires w c) eqn:E; [|reflexivity].
  apply fires_iff in E. destruct E as (Hle & _).
  exfalso. exact (Qlt_not_le _ _ Hlt Hle).
Qed.

Lemma fires_needs_cooldown w c :
  (now_check c - last_alert_ts w <= inject_Z (cooldown w))%Q → fires w c = false.
Proof.
  intros Hle. destruct (fires w c) eqn:E; [|reflexivity].
  apply fires_iff in E. destruct E as (_ & _ & Hlt).
  exfalso. exact (Qlt_not_le _ _ Hlt Hle).
Qed.

End EndToEnd.

(** C3, as stated, fails: at the fixed cadence, on a wall clock, the alert
    of the run 92, 93, 91, 89, 96, 97 is not raised at the third reading. *)
Lemma C3_third_reading_counterexample :
  Watchdog.fired_flags (Watchdog.init "hook" 90 60)
    (fixed_cadence 1700000000 0 [92; 93; 91; 89; 96; 97]%Q)
  ≠ [false; false; true; false; false; false].
Proof. vm_compute. discriminate. Qed.

(** C3, amended.  With threshold 90 and cooldown 60, the readings 92, 93,
    91, 89, 96, 97 raise exactly one alert, at the second consecutive
    breach (the reading 93), as soon as the clock is past the cooldown;
    neither the third breach 91 nor the later pair 96, 97 raises one while
    they fall within the cooldown of that alert. *)
Theorem C3_single_alert_at_second_breach
    (webhook : string) (c1 c2 c3 c4 c5 c6 : Watchdog.cycle) :
  map Watchdog.total [c1; c2; c3; c4; c5; c6] = [92; 93; 91; 89; 96; 97]%Q →
  (60 < Watchdog.now_check c2)%Q →
  (Watchdog.now_check c3 - Watchdog.now_fired c2 <= 60)%Q →
  (Watchdog.now_check c6 - Watchdog.now_fired c2 <= 60)%Q →
  Watchdog.fired_flags (Watchdog.init webhook 90 60) [c1; c2; c3; c4; c5; c6]
  = [false; true; false; false; false; false].
Proof.
  intros Htot Hpast H3 H6.
  injection Htot as T1 T2 T3 T4 T5 T6.
  set (w0 := Watchdog.init webhook 90 60).
  set (w1 := fst (Watchdog.run_cycle w0 c1)).
  set (w2 := fst (Watchdog.run_cycle w1 c2)).
  set (w3 := fst (Watchdog.run_cycle w2 c3)).
  set (w4 := fst (Watchdog.run_cycle w3 c4)).
  set (w5 := fst (Watchdog.run_cycle w4 c5)).
  assert (Th : Watchdog.threshold w1 = 90%Q ∧ Watchdog.threshold w2 = 90%Q
               ∧ Watchdog.threshold w3 = 90%Q ∧ Watchdog.threshold w4 = 90%Q
               ∧ Watchdog.threshold w5 = 90%Q).
  { unfold w5, w4, w3, w2, w1. rewrite !run_cycle_threshold. tauto. }
  destruct Th as (Th1 & Th2 & Th3 & Th4 & Th5).
  assert (Cd : Watchdog.cooldown w1 = 60 ∧ Watchdog.cooldown w2 = 60
               ∧ Watchdog.cooldown w3 = 60 ∧ Watchdog.cooldown w4 = 60
               ∧ Watchdog.cooldown w5 = 60).
  { unfold w5, w4, w3, w2, w1. rewrite !run_cycle_cooldown. tauto. }
  destruct Cd as (Cd1 & Cd2 & Cd3 & Cd4 & Cd5).
  assert (F1 : Watchdog.fires w0 c1 = false)
    by (apply fires_needs_two; simpl; lia).
  assert (K1 : Watchdog.over_counter w1 = 1)
    by (unfold w1; rewrite run_cycle_counter, T1; reflexivity).
  assert (L1 : Watchdog.last_alert_ts w1 = 0%Q)
    by (unfold w1; rewrite last_alert_after, F1; reflexivity).
  assert (F2 : Watchdog.fires w1 c2 = true).
  { apply fires_iff. rewrite Th1, Cd1, T2, K1, L1. repeat split.
    - apply Qle_bool_imp_le. reflexivity.
    - lia.
    - unfold Qminus. rewrite Qplus_0_r. exact Hpast. }
  assert (L2 : Watchdog.last_alert_ts w2 = Watchdog.now_fired c2)
    by (unfold w2; rewrite last_alert_after, F2; reflexivity).
  assert (F3 : Watchdog.fires w2 c3 = false).
  { apply fires_needs_cooldown. rewrite L2, Cd2. exact H3. }
  assert (L3 : Watchdog.last_alert_ts w3 = Watchdog.now_fired c2)
    by (unfold w3; rewrite last_alert_after, F3; exact L2).
  assert (F4 : Watchdog.fires w3 c4 = false).
  { apply fires_needs_breach. rewrite Th3, T4. reflexivity. }
  assert (K4 : Watchdog.over_counter w4 = 0).
  { unfold w4. rewrite run_cycle_counter. fold w3. rewrite Th3, T4. reflexivity. }
  assert (L4 : Watchdog.last_alert_ts w4 = Watchdog.now_fired c2)
    by (unfold w4; rewrite last_alert_after, F4; exact L3).
  assert (F5 : Watchdog.fires w4 c5 = false)
    by (apply fires_needs_two; lia).
  assert (L5 : Watchdog.last_alert_ts w5 = Watchdog.now_fired c2)
    by (unfold w5; rewrite last_alert_after, F5; exact L4).
  assert (F6 : Watchdog.fires w5 c6 = false).
  { apply fires_needs_cooldown. rewrite L5, Cd5. exact H6. }
  rewrite !fired_flags_cons.
  fold w1. rewrite F1. fold w2. rewrite F2. fold w3. rewrite F3.
  fold w4. rewrite F4. fold w5. rewrite F5, F6. reflexivity.
Qed.

Lemma C3_single_alert_at_second_breach_witness :
  Watchdog.fired_flags (Watchdog.init "hook" 90 60)
    (fixed_cadence 1700000000 0 [92; 93; 91; 89; 96; 97]%Q)
  = [false; true; false; false; false; false].
Proof.
  apply (C3_single_alert_at_second_breach "hook"
           (cycle_at 1700000000 0 92) (cycle_at 1700000000 1 93)
           (cycle_at 1700000000 2 91) (cycle_at 1700000000 3 89)
           (cycle_at 1700000000 4 96) (cycle_at 1700000000 5 97)).
  - reflexivity.
  - reflexivity.
  - apply Qle_bool_imp_le. reflexivity.
  - apply Qle_bool_imp_le. reflexivity.
Defined.

(** ** The first alert after start-up *)

Section FirstAlert.
Import Watchdog.

Lemma over_threshold w w' c : threshold w = threshold w' → over w c = over w' c.
Proof. unfold over. intros ->. reflexivity. Qed.

Lemma calm_threshold w w' prev cs :
  threshold w = threshold w' → calm w prev cs = calm w' prev cs.
Proof.
  intros H. revert prev. induction cs as [|c cs IH]; intros prev; [reflexivity|].
  simpl. rewrite (over_threshold w w' c H), IH. reflexivity.
Qed.

(** While no breach follows a breach, no alert is raised, the stored
    timestamp keeps its value, and the counter is 1 or 0 according to
    the last reading. *)
Lemma calm_run cs : ∀ w (prev : bool),
  over_counter w = (if prev then 1 else 0) →
  calm w prev cs = true →
  last_alert_ts (run_state w cs) = last_alert_ts w
  ∧ over_counter (run_state w cs) = (if last_over w prev cs then 1 else 0)
  ∧ Forall (fun o => o = None) (run w cs).
Proof.
  induction cs as [|c cs IH]; intros w prev Hk Hcalm.
  - repeat split; [exact Hk | constructor].
  - simpl in Hcalm. apply andb_true_iff in Hcalm. destruct Hcalm as [Hpair Hcalm].
    apply negb_true_iff in Hpair.
    assert (Hf : fires w c = false).
    { destruct prev; simpl in Hpair.
      - apply fires_needs_breach. apply Qnot_le_lt. intros Hle.
        apply ge_spec in Hle. unfold over in Hpair. congruence.
      - apply fires_needs_two. lia. }
    set (w' := fst (run_cycle w c)).
    assert (Hth : threshold w = threshold w')
      by (unfold w'; rewrite run_cycle_threshold; reflexivity).
    assert (Hk' : over_counter w' = if over w c then 1 else 0).
    { unfold w'. rewrite run_cycle_counter. fold (over w c).
      destruct (over w c) eqn:Ho; [|reflexivity].
      destruct prev; [discriminate Hpair|]. lia. }
    rewrite (calm_threshold w w' _ _ Hth) in Hcalm.
    destruct (IH w' (over w c) Hk' Hcalm) as (Hl & Hc & Hnone).
    change (run_state w (c :: cs)) with (run_state w' cs).
    repeat split.
    + rewrite Hl. unfold w'. rewrite last_alert_after, Hf. reflexivity.
    + rewrite Hc. unfold last_over. simpl.
      f_equal. clear -Hth. generalize (over w c).
      induction cs as [|c' cs IH]; intros b; [reflexivity|].
      simpl. rewrite <- (over_threshold w w' c' Hth). apply IH.
    + simpl. constructor; [|exact Hnone].
      unfold fires in Hf. destruct (snd (run_cycle w c)); [discriminate|reflexivity].
Qed.

Lemma calm_run_snoc w pre c :
  over_counter w = 0 →
  calm w false (pre ++ [c]) = true →
  over w c = true →
  last_alert_ts (run_state w (pre ++ [c])) = last_alert_ts w
  ∧ over_counter (run_state w (pre ++ [c])) = 1
  ∧ Forall (fun o => o = None) (run w (pre ++ [c])).
Proof.
  intros Hk Hcalm Hover.
  destruct (calm_run (pre ++ [c]) w false Hk Hcalm) as (Hl & Hc & Hnone).
  repeat split; [exact Hl | | exact Hnone].
  rewrite Hc. unfold last_over. rewrite fold_left_app. simpl.
  rewrite Hover. reflexivity.
Qed.

End FirstAlert.

(** C10.  A watchdog starts with the last-alert timestamp 0.  So, when the
    clock reads more than the cooldown, the first two consecutive breaches
    of a run raise an alert at once, at the second of them; no cycle before
    it raised one. *)
Theorem C10_first_alert_not_gated
    (webhook : string) (threshold : Q) (cooldown : Z)
    (pre : list Watchdog.cycle) (c1 c2 : Watchdog.cycle) :
  let w0 := Watchdog.init webhook threshold cooldown in
  Watchdog.no_two_consecutive_over w0 (pre ++ [c1]) = true →
  Watchdog.over w0 c1 = true →
  Watchdog.over w0 c2 = true →
  (inject_Z cooldown < Watchdog.now_check c2)%Q →
  Watchdog.last_alert_ts w0 = 0%Q
  ∧ Forall (fun o => o = None) (Watchdog.run w0 (pre ++ [c1]))
  ∧ Watchdog.fires (Watchdog.run_state w0 (pre ++ [c1])) c2 = true.
Proof.
  intros w0 Hcalm Ho1 Ho2 Hclock.
  destruct (calm_run_snoc w0 pre c1 eq_refl Hcalm Ho1) as (Hl & Hc & Hnone).
  repeat split; [exact Hnone|].
  apply fires_iff.
  rewrite run_state_threshold, run_state_cooldown, Hl, Hc.
  repeat split.
  - apply ge_spec. exact Ho2.
  - lia.
  - simpl. unfold Qminus. rewrite Qplus_0_r. exact Hclock.
Qed.

(** A quiet reading, then two breaches, on a wall clock: the alert is
    raised at the second breach. *)
Lemma C10_first_alert_not_gated_witness :
  Watchdog.fired_flags (Watchdog.init_default "hook")
    (fixed_cadence 1700000000 0 [50; 95; 96]%Q) = [false; false; true]
  ∧ Watchdog.fires
      (Watchdog.run_state (Watchdog.init_default "hook")
         (fixed_cadence 1700000000 0 [50; 95]%Q))
      (cycle_at 1700000000 2 96) = true.
Proof.
  split; [reflexivity|].
  apply (C10_first_alert_not_gated "hook" 90 300
           [cycle_at 1700000000 0 50] (cycle_at 1700000000 1 95)
           (cycle_at 1700000000 2 96)); reflexivity.
Defined.

(** ** The bounded history window *)

Section Deque.
Import History.
Context {A : Type}.

Lemma tail_drop (l : list A) : tail l = drop 1 l.
Proof. destruct l; reflexivity. Qed.

(** One append, on a deque within its bound. *)
Lemma append_items (d : deque A) (x : A) :
  (length (items d) ≤ maxlen d)%nat →
  items (append d x)
  = drop (length (items d ++ [x]) - maxlen d) (items d ++ [x]).
Proof.
  intros Hb. unfold append. simpl.
  destruct (Nat.ltb_spec (maxlen d) (length (items d ++ [x]))) as [Hlt|Hge].
  - rewrite length_app in *. simpl in *.
    replace (length (items d) + 1 - maxlen d)%nat with 1%nat by lia.
    apply tail_drop.
  - replace (length (items d ++ [x]) - maxlen d)%nat with 0%nat by lia.
    reflexivity.
Qed.

Lemma fold_append_snoc (d : deque A) (vs : list A) (x : A) :
  fold_left append (vs ++ [x]) d = append (fold_left append vs d) x.
Proof. apply fold_left_app. Qed.

(** After any appends to an empty deque, the window holds the most recent
    [maxlen] values, in insertion order. *)
Lemma fold_append_items (m : nat) (vs : list A) :
  maxlen (fold_left append vs (deque_new m)) = m
  ∧ items (fold_left append vs (deque_new m)) = drop (length vs - m) vs.
Proof.
  induction vs as [|x vs [IHm IHi]] using rev_ind.
  - split; reflexivity.
  - rewrite fold_append_snoc. split; [exact IHm|].
    rewrite append_items.
    + rewrite IHm, IHi.
      rewrite <- (drop_app_le vs [x]) by lia.
      rewrite drop_drop. f_equal.
      rewrite length_drop, !length_app. simpl. lia.
    + rewrite IHm, IHi, length_drop. lia.
Qed.

End Deque.

(** C6.  Under any sequence of appends by the recorder the window holds at
    most 150 values, namely the most recent ones in insertion order; after
    151 appends it holds exactly the last 150, the first appended entry is
    gone, and its value is no longer present (unless a later append
    brought the same value again). *)
Theorem C6_history_window (readings : list Q) :
  let h := History.cpu_history_collector History.CPU_HISTORY readings in
  (length (History.items h) ≤ 150)%nat
  ∧ History.items h = drop (length readings - 150) readings
  ∧ (length readings = 151%nat →
     length (History.items h) = 150%nat
     ∧ ∀ first rest, readings = first :: rest →
         History.items h = rest
         ∧ ((∀ x, x ∈ rest → ¬ (x == first)%Q) →
            ∀ x, x ∈ History.items h → ¬ (x == first)%Q)).
Proof.
  intros h.
  destruct (fold_append_items 150 readings) as [_ Hi].
  fold History.CPU_HISTORY in Hi.
  change (History.items h = drop (length readings - 150) readings) in Hi.
  split; [|split].
  - rewrite Hi, length_drop. lia.
  - exact Hi.
  - intros Hlen. split.
    + rewrite Hi, length_drop. lia.
    + intros first rest ->.
      assert (Hrest : History.items h = rest).
      { rewrite Hi, Hlen. reflexivity. }
      split; [exact Hrest|]. rewrite Hrest. auto.
Qed.

Lemma C6_history_window_witness :
  let h := History.cpu_history_collector History.CPU_HISTORY (ramp 151) in
  length (History.items h) = 150%nat
  ∧ History.items h = tail (ramp 151)
  ∧ ∀ x, x ∈ History.items h → ¬ (x == 0)%Q.
Proof.
  intros h.
  destruct (C6_history_window (ramp 151)) as (_ & _ & H151).
  destruct (H151 eq_refl) as [Hlen Hfirst].
  destruct (Hfirst 0%Q (tail (ramp 151)) eq_refl) as [Hrest Habsent].
  split; [exact Hlen|]. split; [exact Hrest|].
  apply Habsent. apply Forall_forall.
  repeat (constructor; [intros H; vm_compute in H; discriminate H|]).
  constructor.
Defined.

(** ** Messages *)

Lemma prefix_refl (s : string) : String.prefix s s = true.
Proof.
  induction s as [|a s IH]; [reflexivity|].
  simpl. destruct (Ascii.ascii_dec a a); [exact IH|congruence].
Qed.

Lemma prefix_append (s t : string) : String.prefix s (s +:+ t) = true.
Proof.
  induction s as [|a s IH]; [destruct t; reflexivity|].
  simpl. destruct (Ascii.ascii_dec a a); [exact IH|congruence].
Qed.

Lemma contains_prefix (s u : string) :
  String.prefix s u = true → Py.contains s u = true.
Proof. intros H. destruct u; simpl in *; rewrite H; reflexivity. Qed.

Lemma contains_here (s t : string) : Py.contains s (s +:+ t) = true.
Proof. apply contains_prefix, prefix_append. Qed.

Lemma contains_refl (s : string) : Py.contains s s = true.
Proof. apply contains_prefix, prefix_refl. Qed.

Lemma contains_later (p s t : string) :
  Py.contains s t = true → Py.contains s (p +:+ t) = true.
Proof.
  intros H. induction p as [|a p IH]; [exact H|].
  simpl. rewrite IH. apply orb_true_r.
Qed.

(** ** The protection policy *)

Lemma protected_pid_iff (pid : Z) :
  pid ∈ Safeguard.PROTECTED_PIDS ↔ pid = 0 ∨ pid = 4.
Proof.
  unfold Safeguard.PROTECTED_PIDS.
  rewrite elem_of_union, !elem_of_singleton. reflexivity.
Qed.

Lemma system_name_iff (name : string) :
  name ∈ Safeguard.SYSTEM_NAMES
  ↔ name = "System Idle Process" ∨ name = "System" ∨ name = "Registry"
    ∨ name = "MemCompression".
Proof.
  unfold Safeguard.SYSTEM_NAMES.
  rewrite !elem_of_union, !elem_of_singleton. tauto.
Qed.

(** ** The safeguard's outcomes *)

Section SafeguardOutcomes.
Import Exc Safeguard.

Variables (o : os) (pid : Z) (timeout : Q).

Lemma safe_terminate_pid_returns :
  ∃ calls ok msg, safe_terminate_pid o pid timeout = (calls, Ret (ok, msg)).
Proof.
  unfold safe_terminate_pid.
  destruct (attempt o pid timeout) as [calls [[ok msg]|e]].
  - exists calls, ok, msg. reflexivity.
  - exists calls, (fst (handler e)), (snd (handler e)).
    destruct (handler e). reflexivity.
Qed.

Lemma handler_refuses e : fst (handler e) = false.
Proof. unfold handler. destruct (class e); reflexivity. Qed.

Lemma attempt_protected :
  pid ∈ PROTECTED_PIDS →
  attempt o pid timeout
  = ([], Ret (false, "Refusing to terminate a protected system process.")).
Proof.
  intros H. unfold attempt. rewrite bool_decide_eq_true_2 by exact H. reflexivity.
Qed.

Lemma attempt_process_raises e :
  pid ∉ PROTECTED_PIDS →
  os_Process (o pid) = Raise e →
  attempt o pid timeout = ([SysProcess pid], Raise e).
Proof.
  intros H He. unfold attempt. rewrite bool_decide_eq_false_2 by exact H.
  unfold call. rewrite He. reflexivity.
Qed.

Lemma attempt_name_raises e :
  pid ∉ PROTECTED_PIDS →
  os_Process (o pid) = Ret () →
  os_name (o pid) = Raise e →
  attempt o pid timeout = ([SysProcess pid; SysName pid], Raise e).
Proof.
  intros H Hp He. unfold attempt. rewrite bool_decide_eq_false_2 by exact H.
  unfold call. rewrite Hp, He. reflexivity.
Qed.

Lemma attempt_critical_name name :
  pid ∉ PROTECTED_PIDS →
  os_Process (o pid) = Ret () →
  os_name (o pid) = Ret name →
  name ∈ SYSTEM_NAMES →
  attempt o pid timeout
  = ([SysProcess pid; SysName pid],
     Ret (false, "Refusing to terminate critical process: " +:+ name +:+ ".")).
Proof.
  intros H Hp Hn Hin. unfold attempt. rewrite bool_decide_eq_false_2 by exact H.
  unfold call. rewrite Hp, Hn. simpl.
  rewrite bool_decide_eq_true_2 by exact Hin. reflexivity.
Qed.

(** The path of a process that is still alive when the wait times out. *)
Lemma attempt_escalates name e :
  pid ∉ PROTECTED_PIDS →
  os_Process (o pid) = Ret () →
  os_name (o pid) = Ret name →
  name ∉ SYSTEM_NAMES →
  os_terminate (o pid) = Ret () →
  os_wait (o pid) timeout = Raise e →
  class e = TimeoutExpired →
  attempt o pid timeout
  = ([SysProcess pid; SysName pid; SysTerminate pid; SysWait pid timeout;
      SysKill pid],
     match os_kill (o pid) with
     | Ret _ =>
         Ret (true, "Terminated **" +:+ name +:+ "** (PID " +:+ Py.str pid +:+ ").")
     | Raise e' => Raise e'
     end).
Proof.
  intros H Hp Hn Hnin Ht Hw He. unfold attempt.
  rewrite bool_decide_eq_false_2 by exact H.
  unfold call. rewrite Hp, Hn. simpl.
  rewrite bool_decide_eq_false_2 by exact Hnin.
  rewrite Ht, Hw. simpl. rewrite He. simpl.
  destruct (os_kill (o pid)); reflexivity.
Qed.

End SafeguardOutcomes.

(** C7.  For every pid and every behaviour of the system,
    [safe_terminate_pid] returns a pair [(ok, message)] and raises nothing.
    A protected pid is refused with a message mentioning "protected",
    before any call on the process; a process that no longer exists gives
    [(false, ..)] mentioning "no longer exists"; a denied access gives
    [(false, ..)] with the access-denied message; a protected name gives
    [(false, ..)] naming the critical process; and any other exception,
    whichever call raised it, gives [(false, ..)] with a generic message
    that contains the exception's [repr]. *)
Theorem C7_terminate_never_raises (o : Safeguard.os) (pid : Z) (timeout : Q) :
  let result := Safeguard.safe_terminate_pid o pid timeout in
  (∃ calls ok msg, result = (calls, Exc.Ret (ok, msg)))
  ∧ (pid ∈ Safeguard.PROTECTED_PIDS →
     ∃ msg, result = ([], Exc.Ret (false, msg))
            ∧ Py.contains "protected" msg = true)
  ∧ (pid ∉ Safeguard.PROTECTED_PIDS →
     ∀ e, Safeguard.os_Process (o pid) = Exc.Raise e →
          Exc.class e = Exc.NoSuchProcess →
     ∃ msg, result = ([Exc.SysProcess pid], Exc.Ret (false, msg))
            ∧ Py.contains "no longer exists" msg = true)
  ∧ (pid ∉ Safeguard.PROTECTED_PIDS →
     ∀ e, Safeguard.os_Process (o pid) = Exc.Raise e →
          Exc.class e = Exc.AccessDenied →
     ∃ msg, result = ([Exc.SysProcess pid], Exc.Ret (false, msg))
            ∧ Py.contains "Access denied" msg = true)
  ∧ (pid ∉ Safeguard.PROTECTED_PIDS →
     ∀ name, Safeguard.os_Process (o pid) = Exc.Ret () →
             Safeguard.os_name (o pid) = Exc.Ret name →
             name ∈ Safeguard.SYSTEM_NAMES →
     ∃ msg, result = ([Exc.SysProcess pid; Exc.SysName pid], Exc.Ret (false, msg))
            ∧ Py.contains ("critical process: " +:+ name) msg = true)
  ∧ (∀ calls e, Safeguard.attempt o pid timeout = (calls, Exc.Raise e) →
     ∃ msg, result = (calls, Exc.Ret (false, msg))
            ∧ match Exc.class e with
              | Exc.NoSuchProcess => msg = "Process no longer exists."
              | Exc.AccessDenied =>
                  msg = "Access denied. Run the bot with sufficient privileges."
              | _ => msg = "Unexpected error: " +:+ Exc.repr e
                     ∧ Py.contains (Exc.repr e) msg = true
              end).
Proof.
  intros result. subst result. unfold Safeguard.safe_terminate_pid.
  split; [apply safe_terminate_pid_returns|].
  split; [|split; [|split; [|split]]].
  - intros H. rewrite (attempt_protected o pid timeout H).
    eexists. split; reflexivity.
  - intros H e He Hc. rewrite (attempt_process_raises o pid timeout e H He).
    unfold Safeguard.handler. rewrite Hc. eexists. split; reflexivity.
  - intros H e He Hc. rewrite (attempt_process_raises o pid timeout e H He).
    unfold Safeguard.handler. rewrite Hc. eexists. split; reflexivity.
  - intros H name Hp Hn Hin.
    rewrite (attempt_critical_name o pid timeout name H Hp Hn Hin).
    eexists. split; [reflexivity|].
    change (Py.contains ("critical process: " +:+ name)
              ("Refusing to terminate "
               +:+ (("critical process: " +:+ name) +:+ ".")) = true).
    apply contains_later, contains_here.
  - intros calls e ->. unfold Safeguard.handler.
    destruct (Exc.class e); eexists; (split; [reflexivity|]);
      try reflexivity; (split; [reflexivity|]);
      apply (contains_later "Unexpected error: "), contains_refl.
Qed.

(** The protected pid 4, and a pid whose process is gone. *)
Lemma C7_terminate_never_raises_witness :
  (∃ msg, Safeguard.safe_terminate_pid os_gone 4 3 = ([], Exc.Ret (false, msg))
          ∧ Py.contains "protected" msg = true)
  ∧ (∃ msg, Safeguard.safe_terminate_pid os_gone 999 3
            = ([Exc.SysProcess 999], Exc.Ret (false, msg))
            ∧ Py.contains "no longer exists" msg = true).
Proof.
  destruct (C7_terminate_never_raises os_gone 4 3) as (_ & Hprot & _).
  destruct (C7_terminate_never_raises os_gone 999 3) as (_ & _ & Hgone & _).
  split.
  - apply Hprot. apply protected_pid_iff. right. reflexivity.
  - assert (Hfree : 999 ∉ Safeguard.PROTECTED_PIDS)
      by (rewrite protected_pid_iff; lia).
    apply (Hgone Hfree {| Exc.class := Exc.NoSuchProcess;
                          Exc.repr := "psutil.NoSuchProcess()" |});
      reflexivity.
Defined.

(** C8.  For an unprotected process that resolves, is not critical by name,
    accepts the graceful request and is still alive when the wait of
    [timeout] seconds (3 by default) expires, the calls made are, in this
    order, the graceful request, the bounded wait and the forceful kill;
    the result is [(true, ..)] exactly when that kill went through. *)
Theorem C8_forceful_kill_escalation
    (o : Safeguard.os) (pid : Z) (timeout : Q) (name : string) (e : Exc.exn) :
  pid ∉ Safeguard.PROTECTED_PIDS →
  Safeguard.os_Process (o pid) = Exc.Ret () →
  Safeguard.os_name (o pid) = Exc.Ret name →
  name ∉ Safeguard.SYSTEM_NAMES →
  Safeguard.os_terminate (o pid) = Exc.Ret () →
  Safeguard.os_wait (o pid) timeout = Exc.Raise e →
  Exc.class e = Exc.TimeoutExpired →
  let result := Safeguard.safe_terminate_pid o pid timeout in
  Safeguard.default_timeout = 3%Q
  ∧ fst result
    = [Exc.SysProcess pid; Exc.SysName pid; Exc.SysTerminate pid;
       Exc.SysWait pid timeout; Exc.SysKill pid]
  ∧ (Safeguard.os_kill (o pid) = Exc.Ret () →
     snd result
     = Exc.Ret (true, "Terminated **" +:+ name +:+ "** (PID " +:+ Py.str pid +:+ ")."))
  ∧ (∀ msg, snd result = Exc.Ret (true, msg) →
     Safeguard.os_kill (o pid) = Exc.Ret ()).
Proof.
  intros H Hp Hn Hnin Ht Hw He result. subst result.
  unfold Safeguard.safe_terminate_pid.
  rewrite (attempt_escalates o pid timeout name e H Hp Hn Hnin Ht Hw He).
  split; [reflexivity|].
  destruct (Safeguard.os_kill (o pid)) as [[]|e'] eqn:Hk; simpl.
  - repeat split; reflexivity.
  - split; [reflexivity|]. split; [discriminate|].
    intros msg Hr. pose proof (handler_refuses e') as Hf.
    destruct (Safeguard.handler e') as [ok m]. simpl in Hf. subst ok.
    discriminate Hr.
Qed.

Lemma C8_forceful_kill_escalation_witness :
  Safeguard.safe_terminate_pid os_slow 22 Safeguard.default_timeout
  = ([Exc.SysProcess 22; Exc.SysName 22; Exc.SysTerminate 22;
      Exc.SysWait 22 3; Exc.SysKill 22],
     Exc.Ret (true, "Terminated **b** (PID 22).")).
Proof.
  destruct (C8_forceful_kill_escalation os_slow 22 Safeguard.default_timeout "b"
              {| Exc.class := Exc.TimeoutExpired;
                 Exc.repr := "psutil.TimeoutExpired()" |}
              ltac:(rewrite protected_pid_iff; lia) eq_refl eq_refl
              ltac:(rewrite system_name_iff; intros [?|[?|[?|?]]]; discriminate)
              eq_refl eq_refl eq_refl) as (_ & Hcalls & Hok & _).
  specialize (Hok eq_refl).
  destruct (Safeguard.safe_terminate_pid os_slow 22 Safeguard.default_timeout)
    as [calls r].
  simpl in Hcalls, Hok. subst calls r. reflexivity.
Defined.

(** ** The index of [/terminate] *)

Example cache_of_7_rows :
  Commands.rows <$> (cache_of_7 !! 7)
  = Some [ {| Sampler.row_pid := 22; Sampler.row_name := "b";
              Sampler.row_cpu := Py.max 0 (120 / 2) |};
           {| Sampler.row_pid := 11; Sampler.row_name := "a";
              Sampler.row_cpu := Py.max 0 (40 / 2) |} ].
Proof. reflexivity. Qed.

(** With index 0 the body passes the only test ([0 > 2] is false), reads
    [rows[-1]], the last row, and terminates its process. *)
Example terminate_index_zero :
  Commands.terminate cache_of_7 os_easy 1010 7 0
  = ([Exc.SysProcess 11; Exc.SysName 11; Exc.SysTerminate 11; Exc.SysWait 11 3],
     Exc.Ret (Commands.TerminateResult true "Terminated **a** (PID 11).")).
Proof. vm_compute. reflexivity. Qed.

(** C9, as stated, fails at index 0: the lookup is not refused. *)
Lemma C9_index_zero_counterexample :
  ¬ Commands.rejected_out_of_range
      (Commands.terminate cache_of_7 os_easy 1010 7 0).
Proof.
  intros [have H]. rewrite terminate_index_zero in H. discriminate H.
Qed.

(** C9, amended.  For every stored snapshot of length [L] that has not
    expired and every index of at least 1 (the parameter of the command is
    declared [Range[int, 1, 10]]), an index above [L] is refused as out of
    range, with no call on any process and no fault; an index in [1..L]
    selects the row at position [index - 1] of the ordered snapshot, and
    the reply is the safeguard's result for the pid of that row. *)
Theorem C9_index_lookup
    (cache : gmap Z Commands.cache_entry) (o : Safeguard.os) (now : Q)
    (user_id index : Z) (entry : Commands.cache_entry) :
  cache !! user_id = Some entry →
  (now - Commands.at_ entry <= 600)%Q →
  1 ≤ index →
  let rows := Commands.rows entry in
  let result := Commands.terminate cache o now user_id index in
  (Z.of_nat (length rows) < index →
     result = ([], Exc.Ret (Commands.IndexOutOfRange (length rows)))
     ∧ Commands.rejected_out_of_range result)
  ∧ (index ≤ Z.of_nat (length rows) →
     ∃ target calls ok msg,
       rows !! Z.to_nat (index - 1) = Some target
       ∧ Safeguard.safe_terminate_pid o (Sampler.row_pid target)
           Safeguard.default_timeout = (calls, Exc.Ret (ok, msg))
       ∧ result = (calls, Exc.Ret (Commands.TerminateResult ok msg))).
Proof.
  intros Hlook Hfresh Hidx rows result. subst result rows.
  unfold Commands.terminate. rewrite Hlook.
  apply gt_false in Hfresh. rewrite Hfresh.
  split.
  - intros Hbig.
    destruct (Z.ltb_spec (Z.of_nat (length (Commands.rows entry))) index); [|lia].
    split; [reflexivity|]. eexists. reflexivity.
  - intros Hin.
    destruct (Z.ltb_spec (Z.of_nat (length (Commands.rows entry))) index); [lia|].
    unfold Py.index.
    destruct (Z.leb_spec 0 (index - 1)); [|lia].
    destruct (Z.ltb_spec (index - 1) (Z.of_nat (length (Commands.rows entry))));
      [|lia].
    simpl.
    destruct (lookup_lt_is_Some_2 (Commands.rows entry) (Z.to_nat (index - 1)))
      as [target Ht]; [lia|].
    rewrite Ht.
    destruct (safe_terminate_pid_returns o (Sampler.row_pid target)
                Safeguard.default_timeout) as (calls & ok & msg & Hs).
    exists target, calls, ok, msg.
    split; [reflexivity|]. split; [exact Hs|].
    rewrite Hs. simpl. rewrite app_nil_r. reflexivity.
Qed.

(** Caller 7 asks for index 3 of two rows, then for index 1. *)
Lemma C9_index_lookup_witness :
  Commands.terminate cache_of_7 os_easy 1010 7 3
  = ([], Exc.Ret (Commands.IndexOutOfRange 2))
  ∧ ∃ target calls ok msg,
      Sampler.snapshot_top_processes two_processes 10 !! 0%nat = Some target
      ∧ Safeguard.safe_terminate_pid os_easy (Sampler.row_pid target)
          Safeguard.default_timeout = (calls, Exc.Ret (ok, msg))
      ∧ Commands.terminate cache_of_7 os_easy 1010 7 1
        = (calls, Exc.Ret (Commands.TerminateResult ok msg)).
Proof.
  assert (Hfresh : (1010 - 1000 <= 600)%Q) by (apply Qle_bool_imp_le; reflexivity).
  split.
  - apply (C9_index_lookup cache_of_7 os_easy 1010 7 3
             {| Commands.at_ := 1000;
                Commands.rows := Sampler.snapshot_top_processes two_processes 10 |}
             eq_refl Hfresh); vm_compute; [discriminate | reflexivity].
  - apply (C9_index_lookup cache_of_7 os_easy 1010 7 1
             {| Commands.at_ := 1000;
                Commands.rows := Sampler.snapshot_top_processes two_processes 10 |}
             eq_refl Hfresh); vm_compute; discriminate.
Defined.

(** * Further properties of the code *)

(** ** The sampler's result *)

Section SamplerResult.
Import Sampler.

Lemma slice_to_take {A} n (l : list A) : ∃ k, Py.slice_to n l = take k l.
Proof. unfold Py.slice_to. destruct (0 <=? n); eexists; reflexivity. Qed.

Lemma sampled_rows_spec h r :
  r ∈ sampled_rows h ↔
  ∃ p raw, p ∈ process_iter h ∧ primed p = true ∧ reread p = Reading raw
           ∧ r = {| row_pid := pid p;
                    row_name := Py.str_take 64
                                  (Py.str_or (info_name p) ("pid-" +:+ Py.str (pid p)));
                    row_cpu := normalized raw (Py.or_1 (cpu_count_logical h)) |}.
Proof.
  unfold sampled_rows. rewrite list_elem_of_omap. split.
  - intros (p & Hp & Hrow). apply list_elem_of_In, filter_In in Hp.
    destruct Hp as [Hp Hprimed]. apply list_elem_of_In in Hp.
    unfold row_of in Hrow. destruct (reread p) as [raw| |] eqn:Hr; try discriminate.
    exists p, raw. injection Hrow as <-. auto.
  - intros (p & raw & Hp & Hprimed & Hr & ->). exists p. split.
    + apply list_elem_of_In, filter_In. split; [apply list_elem_of_In, Hp|exact Hprimed].
    + unfold row_of. rewrite Hr. reflexivity.
Qed.

Lemma snapshot_subset h n r :
  r ∈ snapshot_top_processes h n → r ∈ sampled_rows h.
Proof.
  unfold snapshot_top_processes. destruct (slice_to_take n (sort_desc (sampled_rows h)))
    as [k ->].
  intros Hr. rewrite (sort_desc_perm (sampled_rows h)).
  rewrite <- (take_drop k (sort_desc (sampled_rows h))).
  apply elem_of_app. left. exact Hr.
Qed.

Lemma snapshot_all_when_large h n :
  Z.of_nat (survivors h) ≤ n →
  Permutation (sampled_rows h) (snapshot_top_processes h n).
Proof.
  intros Hn. unfold snapshot_top_processes, Py.slice_to.
  destruct (Z.leb_spec 0 n); [|lia].
  rewrite take_ge; [apply sort_desc_perm|].
  rewrite sort_desc_length, sampled_rows_length. lia.
Qed.



End SamplerResult.

(** X1.  The snapshot has exactly [min(n, survivors)] rows for [n >= 0],
    and [max(0, survivors + n)] rows for a negative [n] (the slice
    [rows[:n]] then drops the last [-n] rows). *)
Theorem snapshot_length_exact (h : Sampler.host) (n : Z) :
  Z.of_nat (length (Sampler.snapshot_top_processes h n))
  = if 0 <=? n then Z.min n (Z.of_nat (Sampler.survivors h))
    else Z.max 0 (Z.of_nat (Sampler.survivors h) + n).
Proof.
  unfold Sampler.snapshot_top_processes, Py.slice_to.
  destruct (Z.leb_spec 0 n); rewrite length_take, sort_desc_length,
    sampled_rows_length; lia.
Qed.

(** X2.  The snapshot is the top of the ranking: together with the rows it
    leaves out it is a rearrangement of all sampled rows, no row left out
    has more CPU than a row kept, and nothing is left out when [n] is at
    least the number of survivors. *)
Theorem snapshot_keeps_the_highest (h : Sampler.host) (n : Z) :
  ∃ rest,
    Permutation (Sampler.sampled_rows h)
      (Sampler.snapshot_top_processes h n ++ rest)
    ∧ (∀ kept dropped,
         kept ∈ Sampler.snapshot_top_processes h n → dropped ∈ rest →
         (Sampler.row_cpu dropped <= Sampler.row_cpu kept)%Q)
    ∧ (Z.of_nat (Sampler.survivors h) ≤ n → rest = []).
Proof.
  unfold Sampler.snapshot_top_processes.
  set (sorted := Sampler.sort_desc (Sampler.sampled_rows h)).
  assert (Hlen : length sorted = Sampler.survivors h)
    by (unfold sorted; rewrite sort_desc_length; apply sampled_rows_length).
  assert (Hk : ∃ k, Py.slice_to n sorted = take k sorted
                    ∧ (Z.of_nat (Sampler.survivors h) ≤ n
                       → (length sorted ≤ k)%nat)).
  { unfold Py.slice_to. destruct (Z.leb_spec 0 n).
    - exists (Z.to_nat n). split; [reflexivity|lia].
    - eexists. split; [reflexivity|lia]. }
  destruct Hk as (k & -> & Hall).
  exists (drop k sorted). split; [|split].
  - rewrite take_drop. apply sort_desc_perm.
  - intros kept dropped Hkept Hdropped.
    pose proof (sort_desc_sorted (Sampler.sampled_rows h)) as Hs.
    fold sorted in Hs. unfold Sampler.cpu_descending in Hs.
    rewrite <- (take_drop k sorted) in Hs.
    exact (StronglySorted_app_1_elem_of _ _ _ _ _ Hs Hkept Hdropped).
  - intros Hn. apply drop_ge. lia.
Qed.

(** X3.  Every row of the snapshot belongs to a process of the table whose
    priming and re-read both answered, and carries its pid and the
    normalized value of its re-read; a process that raised in either phase
    has no row.  Conversely, when [n] is at least the number of survivors,
    every such process has its row. *)
Theorem snapshot_rows_are_survivors (h : Sampler.host) (n : Z) :
  Forall (fun r =>
            ∃ p raw, p ∈ Sampler.process_iter h
                     ∧ Sampler.survived p = true
                     ∧ Sampler.reread p = Sampler.Reading raw
                     ∧ Sampler.row_pid r = Sampler.pid p
                     ∧ Sampler.row_cpu r
                       = Sampler.normalized raw
                           (Py.or_1 (Sampler.cpu_count_logical h)))
         (Sampler.snapshot_top_processes h n)
  ∧ (Z.of_nat (Sampler.survivors h) ≤ n →
     ∀ p raw, p ∈ Sampler.process_iter h → Sampler.primed p = true →
              Sampler.reread p = Sampler.Reading raw →
     ∃ r, r ∈ Sampler.snapshot_top_processes h n
          ∧ Sampler.row_pid r = Sampler.pid p
          ∧ Sampler.row_cpu r
            = Sampler.normalized raw (Py.or_1 (Sampler.cpu_count_logical h))).
Proof.
  split.
  - apply Forall_forall. intros r Hr.
    apply snapshot_subset, sampled_rows_spec in Hr.
    destruct Hr as (p & raw & Hp & Hprimed & Hraw & ->).
    exists p, raw. unfold Sampler.survived. rewrite Hprimed, Hraw. auto.
  - intros Hn p raw Hp Hprimed Hraw.
    pose proof (snapshot_all_when_large h n Hn) as Hperm.
    exists {| Sampler.row_pid := Sampler.pid p;
              Sampler.row_name :=
                Py.str_take 64
                  (Py.str_or (Sampler.info_name p)
                     ("pid-" +:+ Py.str (Sampler.pid p)));
              Sampler.row_cpu :=
                Sampler.normalized raw (Py.or_1 (Sampler.cpu_count_logical h)) |}.
    split; [|split; reflexivity].
    rewrite <- Hperm. apply sampled_rows_spec. exists p, raw. auto.
Qed.


(** ** Ties in the ranking *)

Section Ties.
Import Sampler.

(** The rows whose CPU value is [v]. *)
Local Abbreviation with_cpu v l :=
  (List.filter (fun r => Qeq_bool (row_cpu r) v) l).

Lemma insert_desc_with_cpu v x l :
  with_cpu v (insert_desc x l) = with_cpu v (x :: l).
Proof.
  induction l as [|y l IH]; [reflexivity|].
  simpl insert_desc. destruct (Qle_bool (row_cpu y) (row_cpu x)) eqn:E; [reflexivity|].
  simpl. simpl in IH. rewrite IH.
  destruct (Qeq_bool (row_cpu y) v) eqn:Ey; [|reflexivity].
  destruct (Qeq_bool (row_cpu x) v) eqn:Ex; [|reflexivity].
  exfalso. apply Qeq_bool_iff in Ey, Ex.
  assert (Hle : (row_cpu y <= row_cpu x)%Q) by (rewrite Ey, Ex; apply Qle_refl).
  apply Qle_bool_iff in Hle. congruence.
Qed.

Lemma sort_desc_with_cpu v l : with_cpu v (sort_desc l) = with_cpu v l.
Proof.
  induction l as [|x l IH]; [reflexivity|].
  simpl sort_desc. rewrite insert_desc_with_cpu.
  simpl. rewrite IH. reflexivity.
Qed.

Lemma filter_take_prefix {A} (f : A → bool) k (l : list A) :
  List.filter f (take k l) `prefix_of` List.filter f l.
Proof.
  exists (List.filter f (drop k l)).
  rewrite <- List.filter_app, take_drop. reflexivity.
Qed.

End Ties.

(** X5.  The ranking is stable: the rows of the snapshot that have one and
    the same CPU value come in the order of the process table (they are
    the first of the sampled rows with that value). *)
Theorem snapshot_ties_keep_table_order (h : Sampler.host) (n : Z) (v : Q) :
  List.filter (fun r => Qeq_bool (Sampler.row_cpu r) v)
    (Sampler.snapshot_top_processes h n)
  `prefix_of`
  List.filter (fun r => Qeq_bool (Sampler.row_cpu r) v) (Sampler.sampled_rows h).
Proof.
  unfold Sampler.snapshot_top_processes.
  destruct (slice_to_take n (Sampler.sort_desc (Sampler.sampled_rows h))) as [k ->].
  pose proof (sort_desc_with_cpu v (Sampler.sampled_rows h)) as Hs.
  simpl in Hs. rewrite <- Hs. apply filter_take_prefix.
Qed.

(** ** The watchdog over a run *)

Section WatchdogRun.
Import Watchdog.

Lemma run_state_snoc w cs c :
  run_state w (cs ++ [c]) = fst (run_cycle (run_state w cs) c).
Proof. rewrite run_state_app. reflexivity. Qed.

Lemma trailing_over_snoc w cs c :
  trailing_over w (cs ++ [c])
  = if over w c then S (trailing_over w cs) else O.
Proof. unfold trailing_over. rewrite rev_app_distr. reflexivity. Qed.

Lemma trailing_over_le w cs : (trailing_over w cs ≤ length cs)%nat.
Proof.
  unfold trailing_over. rewrite <- length_rev.
  induction (rev cs) as [|c l IH]; simpl; [lia|].
  destruct (over w c); simpl; lia.
Qed.

(** The counter after a run: the breaches at its end, on top of the
    initial counter when the whole run breached. *)
Lemma counter_trailing w cs :
  over_counter (run_state w cs)
  = Z.of_nat (trailing_over w cs)
    + (if (trailing_over w cs =? length cs)%nat then over_counter w else 0).
Proof.
  induction cs as [|c cs IH] using rev_ind.
  - reflexivity.
  - rewrite run_state_snoc, run_cycle_counter, run_state_threshold.
    fold (over w c). rewrite trailing_over_snoc, length_app. simpl.
    destruct (over w c).
    + rewrite IH.
      replace (length cs + 1)%nat with (S (length cs)) by lia.
      change (S (trailing_over w cs) =? S (length cs))%nat
        with (trailing_over w cs =? length cs)%nat.
      destruct (trailing_over w cs =? length cs)%nat; lia.
    + replace (length cs + 1)%nat with (S (length cs)) by lia.
      reflexivity.
Qed.

Lemma same_machine_cycle w w' c :
  same_machine w w' →
  snd (run_cycle w c) = snd (run_cycle w' c)
  ∧ same_machine (fst (run_cycle w c)) (fst (run_cycle w' c)).
Proof.
  intros (Ht & Hc & Hl & Hk). unfold run_cycle, should_fire. simpl.
  rewrite Ht, Hc, Hl, Hk.
  destruct (Py.ge _ _); [|repeat split; assumption].
  destruct (_ && _); repeat split; simpl; congruence.
Qed.

Lemma same_machine_run cs : ∀ w w',
  same_machine w w' → run w cs = run w' cs.
Proof.
  induction cs as [|c cs IH]; intros w w' H; [reflexivity|].
  destruct (same_machine_cycle w w' c H) as [Ho Hn].
  simpl. rewrite Ho. f_equal. apply IH, Hn.
Qed.

Lemma run_cycle_webhook w c : webhook (fst (run_cycle w c)) = webhook w.
Proof.
  unfold run_cycle. destruct (Py.ge _ _); [|reflexivity].
  destruct (should_fire _ _); reflexivity.
Qed.

End WatchdogRun.

(** X6.  After any run of a fresh watchdog, the counter is the number of
    consecutive breaches at the end of the run: 0 after a quiet reading,
    and not capped under a sustained breach. *)
Theorem counter_counts_trailing_breaches
    (webhook : string) (threshold : Q) (cooldown : Z) (cs : list Watchdog.cycle) :
  let w0 := Watchdog.init webhook threshold cooldown in
  Watchdog.over_counter (Watchdog.run_state w0 cs)
  = Z.of_nat (trailing_over w0 cs).
Proof.
  intros w0. rewrite counter_trailing.
  destruct (_ =? _)%nat; simpl; lia.
Qed.

(** X7.  In a run of a fresh watchdog the first cycle never raises an
    alert, and a later cycle raises one exactly when its reading and the
    reading just before it both breach and the time since the stored
    timestamp exceeds the cooldown: older readings play no part. *)
Theorem alert_needs_the_two_last_readings
    (webhook : string) (threshold : Q) (cooldown : Z)
    (pre : list Watchdog.cycle) (c1 c2 : Watchdog.cycle) :
  let w0 := Watchdog.init webhook threshold cooldown in
  let w := Watchdog.run_state w0 (pre ++ [c1]) in
  Watchdog.fires w0 c1 = false
  ∧ (Watchdog.fires w c2 = true ↔
     Watchdog.over w0 c1 = true ∧ Watchdog.over w0 c2 = true
     ∧ (inject_Z cooldown < Watchdog.now_check c2 - Watchdog.last_alert_ts w)%Q).
Proof.
  intros w0 w. split.
  - apply fires_needs_two. simpl. lia.
  - assert (Hk : Watchdog.over_counter w
                 = if Watchdog.over w0 c1
                   then Z.of_nat (S (trailing_over w0 pre)) else 0).
    { subst w. rewrite counter_trailing, trailing_over_snoc.
      change (Watchdog.over_counter w0) with 0.
      destruct (Watchdog.over w0 c1); destruct (_ =? _)%nat; simpl; lia. }
    rewrite fires_iff, Hk. subst w.
    rewrite run_state_threshold, run_state_cooldown.
    change (Watchdog.threshold w0) with threshold.
    change (Watchdog.cooldown w0) with cooldown.
    rewrite <- (ge_spec (Watchdog.total c2) threshold).
    change (Py.ge (Watchdog.total c2) threshold) with (Watchdog.over w0 c2).
    destruct (Watchdog.over w0 c1).
    + split; intros (? & ? & ?); repeat split; auto; lia.
    + split; [intros (_ & ? & _); lia | intros (? & _); discriminate].
Qed.

(** X8.  An alert carries the data of its own cycle: the total is the
    reading that breached, and the rows are the sampler's snapshot of that
    cycle's process table, at most 3 of them, highest CPU first. *)
Theorem alert_carries_its_cycle (w : Watchdog.CPUWatchdog) (c : Watchdog.cycle) :
  match snd (Watchdog.run_cycle w c) with
  | Some a =>
      Watchdog.alert_total a = Watchdog.total c
      ∧ (Watchdog.threshold w <= Watchdog.alert_total a)%Q
      ∧ Watchdog.alert_top3 a
        = Sampler.snapshot_top_processes (Watchdog.table c) 3
      ∧ (length (Watchdog.alert_top3 a) ≤ 3)%nat
      ∧ Sampler.cpu_descending (Watchdog.alert_top3 a)
  | None => True
  end.
Proof.
  unfold Watchdog.run_cycle.
  destruct (Py.ge _ _) eqn:Hge; [|exact I].
  destruct (Watchdog.should_fire _ _); [|exact I].
  simpl. apply ge_spec in Hge. repeat split; try assumption.
  - unfold Sampler.snapshot_top_processes, Py.slice_to. simpl.
    rewrite length_take. lia.
  - apply slice_to_sorted, sort_desc_sorted.
Qed.

(** X9.  The webhook does not steer the alerting: with or without one the
    same cycles raise the same alerts (and take the cooldown); without a
    webhook none of them reaches the sink, with one every alert does. *)
Theorem webhook_does_not_steer_alerting
    (webhook : string) (threshold : Q) (cooldown : Z) (cs : list Watchdog.cycle) :
  Watchdog.run (Watchdog.init webhook threshold cooldown) cs
  = Watchdog.run (Watchdog.init "" threshold cooldown) cs
  ∧ Forall (fun o => o = None)
      (deliveries (Watchdog.init "" threshold cooldown) cs)
  ∧ (webhook ≠ "" →
     deliveries (Watchdog.init webhook threshold cooldown) cs
     = Watchdog.run (Watchdog.init webhook threshold cooldown) cs).
Proof.
  split; [|split].
  - apply same_machine_run. repeat split.
  - unfold deliveries. apply Forall_fmap, Forall_forall.
    intros [a|] _; reflexivity.
  - intros Hwh. unfold deliveries.
    rewrite <- (map_id (Watchdog.run _ cs)) at 2.
    apply map_ext. intros [a|]; [|reflexivity].
    unfold Watchdog.send_webhook_alert. simpl.
    destruct webhook; [contradiction|reflexivity].
Qed.

Lemma webhook_does_not_steer_alerting_witness :
  deliveries (Watchdog.init "hook" 90 300)
    (fixed_cadence 1700000000 0 [50; 95; 96]%Q)
  = Watchdog.run (Watchdog.init "hook" 90 300)
      (fixed_cadence 1700000000 0 [50; 95; 96]%Q).
Proof.
  apply (webhook_does_not_steer_alerting "hook" 90 300
           (fixed_cadence 1700000000 0 [50; 95; 96]%Q)).
  discriminate.
Defined.

(** ** The paths of the safeguard *)

Section SafeguardPaths.
Import Exc Safeguard.

Variables (o : os) (pid : Z) (timeout : Q).

(** The body of the [try] takes one of the paths, whatever the system
    answers. *)
Lemma attempt_takes_a_path :
  attempt_path o pid timeout
    (fst (attempt o pid timeout)) (snd (attempt o pid timeout)).
Proof.
  destruct (decide (pid ∈ PROTECTED_PIDS)) as [Hprot|Hprot].
  { rewrite (attempt_protected o pid timeout Hprot). apply path_protected, Hprot. }
  destruct (os_Process (o pid)) as [[]|eP] eqn:HP.
  2:{ rewrite (attempt_process_raises o pid timeout eP Hprot HP).
      apply path_process_raises; assumption. }
  destruct (os_name (o pid)) as [name|eN] eqn:HN.
  2:{ rewrite (attempt_name_raises o pid timeout eN Hprot HP HN).
      apply path_name_raises; assumption. }
  destruct (decide (name ∈ SYSTEM_NAMES)) as [Hsys|Hsys].
  { rewrite (attempt_critical_name o pid timeout name Hprot HP HN Hsys).
    apply path_critical; assumption. }
  unfold attempt. rewrite (bool_decide_eq_false_2 _ Hprot).
  unfold call. rewrite HP, HN. simpl.
  rewrite (bool_decide_eq_false_2 _ Hsys).
  destruct (os_terminate (o pid)) as [[]|eT] eqn:HT; simpl.
  2:{ eapply path_terminate_raises; eassumption. }
  destruct (os_wait (o pid) timeout) as [[]|eW] eqn:HW; simpl.
  { eapply path_exited; eassumption. }
  destruct (class_eqb (class eW) TimeoutExpired) eqn:Hcls.
  - assert (Hc : class eW = TimeoutExpired)
      by (destruct (class eW); first [reflexivity | discriminate Hcls]).
    destruct (os_kill (o pid)) as [[]|eK] eqn:HK; simpl.
    + eapply path_killed; eassumption.
    + eapply path_kill_raises; eassumption.
  - assert (Hc : class eW ≠ TimeoutExpired)
      by (intros Hc; rewrite Hc in Hcls; discriminate Hcls).
    simpl. eapply path_wait_raises; eassumption.
Qed.

(** [safe_terminate_pid] makes the calls of the body and turns an
    exception into the handler's pair. *)
Lemma safe_terminate_pid_of_attempt :
  safe_terminate_pid o pid timeout
  = (fst (attempt o pid timeout),
     match snd (attempt o pid timeout) with
     | Ret v => Ret v
     | Raise e => Ret (handler e)
     end).
Proof.
  unfold safe_terminate_pid.
  destruct (attempt o pid timeout) as [calls [v|e]]; reflexivity.
Qed.

Lemma handler_not_ok e msg : handler e ≠ (true, msg).
Proof.
  intros H. pose proof (handler_refuses e) as Hf. rewrite H in Hf. discriminate Hf.
Qed.

End SafeguardPaths.

(** X10.  A protected process is never touched: whatever the system
    answers, a terminate or kill request is made only on a pid outside the
    protected pids whose resolved name is outside the protected names; a
    protected pid is refused before any call at all. *)
Theorem protected_process_is_never_touched
    (o : Safeguard.os) (pid : Z) (timeout : Q) :
  let calls := fst (Safeguard.safe_terminate_pid o pid timeout) in
  (pid ∈ Safeguard.PROTECTED_PIDS → calls = [])
  ∧ (existsb destructive calls = true →
     (pid ∉ Safeguard.PROTECTED_PIDS)
     ∧ ∃ name, Safeguard.os_name (o pid) = Exc.Ret name
               ∧ (name ∉ Safeguard.SYSTEM_NAMES)).
Proof.
  intros calls. subst calls. rewrite safe_terminate_pid_of_attempt. simpl.
  split.
  - intros Hprot. rewrite (attempt_protected o pid timeout Hprot). reflexivity.
  - destruct (attempt_takes_a_path o pid timeout); simpl;
      intros Hd; try discriminate Hd; eauto.
Qed.

(** X11.  The calls follow one protocol: they are an initial part of
    resolve, name, terminate, wait, kill, all on the pid that was asked
    for and on no other; the kill is requested only after the bounded wait
    timed out. *)
Theorem calls_follow_the_protocol (o : Safeguard.os) (pid : Z) (timeout : Q) :
  let calls := fst (Safeguard.safe_terminate_pid o pid timeout) in
  calls `prefix_of`
    [Exc.SysProcess pid; Exc.SysName pid; Exc.SysTerminate pid;
     Exc.SysWait pid timeout; Exc.SysKill pid]
  ∧ Forall (fun s => syscall_pid s = pid) calls
  ∧ (existsb is_kill calls = true →
     ∃ e, Safeguard.os_wait (o pid) timeout = Exc.Raise e
          ∧ Exc.class e = Exc.TimeoutExpired).
Proof.
  intros calls. subst calls. rewrite safe_terminate_pid_of_attempt. simpl.
  destruct (attempt_takes_a_path o pid timeout); simpl;
    (split; [eexists; reflexivity|]);
    (split; [repeat constructor|]);
    intros Hk; try discriminate Hk; eauto.
Qed.

(** X12.  The result is [(true, ..)] exactly when the pid is not protected,
    the process resolves, its name is not protected, the graceful request
    goes through, and the process either exits within the wait or is
    killed after the wait timed out; the message then names the process
    and its pid. *)
Theorem terminate_succeeds_iff
    (o : Safeguard.os) (pid : Z) (timeout : Q) (msg : string) :
  snd (Safeguard.safe_terminate_pid o pid timeout) = Exc.Ret (true, msg)
  ↔ (pid ∉ Safeguard.PROTECTED_PIDS)
    ∧ Safeguard.os_Process (o pid) = Exc.Ret ()
    ∧ ∃ name,
        Safeguard.os_name (o pid) = Exc.Ret name
        ∧ (name ∉ Safeguard.SYSTEM_NAMES)
        ∧ Safeguard.os_terminate (o pid) = Exc.Ret ()
        ∧ (Safeguard.os_wait (o pid) timeout = Exc.Ret ()
           ∨ ∃ e, Safeguard.os_wait (o pid) timeout = Exc.Raise e
                  ∧ Exc.class e = Exc.TimeoutExpired
                  ∧ Safeguard.os_kill (o pid) = Exc.Ret ())
        ∧ msg = terminated_message name pid.
Proof.
  rewrite safe_terminate_pid_of_attempt. simpl. split.
  - destruct (attempt_takes_a_path o pid timeout); intros Hr;
      try (injection Hr as Hr; exfalso; exact (handler_not_ok _ _ Hr));
      try discriminate Hr;
      injection Hr as <-; (split; [assumption|]); (split; [assumption|]);
      exists name; repeat split; eauto.
  - intros (Hprot & HP & name & HN & Hsys & HT & Hwait & ->).
    unfold Safeguard.attempt.
    rewrite (bool_decide_eq_false_2 _ Hprot).
    unfold Exc.call. rewrite HP, HN. simpl.
    rewrite (bool_decide_eq_false_2 _ Hsys), HT. simpl.
    destruct Hwait as [HW | (e & HW & Hc & HK)].
    + rewrite HW. reflexivity.
    + rewrite HW. simpl. rewrite Hc. simpl. rewrite HK. reflexivity.
Qed.

(** ** The cache of [/topcpu] and the lookup of [/terminate] *)

Section CacheLookup.
Import Exc Commands.

Lemma safe_terminate_calls_pid o pid timeout :
  Forall (fun s => syscall_pid s = pid)
    (fst (Safeguard.safe_terminate_pid o pid timeout)).
Proof.
  rewrite safe_terminate_pid_of_attempt. simpl.
  destruct (attempt_takes_a_path o pid timeout); repeat constructor.
Qed.

(** [rows[index - 1]] by the sign and size of [index]. *)
Lemma index_minus_one {A} (l : list A) (index : Z) :
  index ≤ Z.of_nat (length l) →
  (index ≤ - Z.of_nat (length l) ∧ Py.index l (index - 1) = None)
  ∨ (- Z.of_nat (length l) < index
     ∧ ∃ x, Py.index l (index - 1) = Some x ∧ x ∈ l
            ∧ (1 ≤ index → l !! Z.to_nat (index - 1) = Some x)).
Proof.
  intros Hle. unfold Py.index.
  destruct (Z.leb_spec 0 (index - 1)); simpl.
  - destruct (Z.ltb_spec (index - 1) (Z.of_nat (length l))); [|lia].
    right. split; [lia|].
    destruct (lookup_lt_is_Some_2 l (Z.to_nat (index - 1))) as [x Hx]; [lia|].
    exists x. rewrite Hx. repeat split; auto.
    apply list_elem_of_lookup. eauto.
  - destruct (Z.leb_spec (- Z.of_nat (length l)) (index - 1)); simpl.
    + destruct (Z.ltb_spec (index - 1) 0); [|lia].
      right. split; [lia|].
      destruct (lookup_lt_is_Some_2 l
                  (Z.to_nat (Z.of_nat (length l) + (index - 1)))) as [x Hx]; [lia|].
      exists x. rewrite Hx. repeat split; [|lia].
      apply list_elem_of_lookup. eauto.
    + left. split; [lia|reflexivity].
Qed.

(** The body of [terminate] once the caller's entry is found and fresh. *)
Lemma terminate_on_fresh_entry cache o now user_id index entry :
  cache !! user_id = Some entry →
  (now - at_ entry <= 600)%Q →
  terminate cache o now user_id index
  = if Z.of_nat (length (rows entry)) <? index then
      ([], Ret (IndexOutOfRange (length (rows entry))))
    else
      match Py.index (rows entry) (index - 1) with
      | None => ([], Raise {| class := IndexError;
                              repr := "IndexError('list index out of range')" |})
      | Some target =>
          (fst (Safeguard.safe_terminate_pid o (Sampler.row_pid target)
                  Safeguard.default_timeout),
           match snd (Safeguard.safe_terminate_pid o (Sampler.row_pid target)
                        Safeguard.default_timeout) with
           | Ret (ok, msg) => Ret (TerminateResult ok msg)
           | Raise e => Raise e
           end)
      end.
Proof.
  intros Hlook Hfresh. unfold terminate. rewrite Hlook.
  apply gt_false in Hfresh. rewrite Hfresh.
  destruct (_ <? _); [reflexivity|].
  destruct (Py.index _ _) as [target|]; [|reflexivity].
  destruct (safe_terminate_pid_returns o (Sampler.row_pid target)
              Safeguard.default_timeout) as (calls & ok & msg & ->).
  simpl. rewrite app_nil_r. reflexivity.
Qed.

Lemma terminate_stale cache o now user_id index entry :
  cache !! user_id = Some entry →
  (600 < now - at_ entry)%Q →
  terminate cache o now user_id index = ([], Ret NoRecentList).
Proof.
  intros Hlook Hstale. unfold terminate. rewrite Hlook.
  apply gt_spec in Hstale. rewrite Hstale. reflexivity.
Qed.

Lemma terminate_missing cache o now user_id index :
  cache !! user_id = None →
  terminate cache o now user_id index = ([], Ret NoRecentList).
Proof. intros Hlook. unfold terminate. rewrite Hlook. reflexivity. Qed.

End CacheLookup.

(** X13.  Store, then look up: after [/topcpu] by a caller, a [/terminate]
    by the same caller within 600 seconds reads the snapshot that was
    stored, which has at most 10 rows; an index in [1..L] gives the
    safeguard's result for the pid of the row at that rank, and a larger
    index is refused as out of range. *)
Theorem topcpu_then_terminate
    (cache : gmap Z Commands.cache_entry) (h : Sampler.host) (o : Safeguard.os)
    (stored now : Q) (user_id index : Z) :
  (now - stored <= 600)%Q →
  1 ≤ index →
  let rows := Sampler.snapshot_top_processes h 10 in
  let result :=
    Commands.terminate (Commands.topcpu cache h stored user_id) o now user_id index in
  (length rows ≤ 10)%nat
  ∧ (Z.of_nat (length rows) < index →
     result = ([], Exc.Ret (Commands.IndexOutOfRange (length rows))))
  ∧ (index ≤ Z.of_nat (length rows) →
     ∃ target calls ok msg,
       rows !! Z.to_nat (index - 1) = Some target
       ∧ Safeguard.safe_terminate_pid o (Sampler.row_pid target)
           Safeguard.default_timeout = (calls, Exc.Ret (ok, msg))
       ∧ result = (calls, Exc.Ret (Commands.TerminateResult ok msg))).
Proof.
  intros Hfresh Hidx rows result.
  assert (Hres : result
    = Commands.terminate (Commands.topcpu cache h stored user_id) o now user_id index)
    by reflexivity.
  rewrite (terminate_on_fresh_entry _ o now user_id index
             {| Commands.at_ := stored; Commands.rows := rows |}) in Hres;
    [|apply lookup_insert_eq|exact Hfresh].
  simpl in Hres. split; [|split].
  - unfold rows, Sampler.snapshot_top_processes, Py.slice_to. simpl.
    rewrite length_take. lia.
  - intros Hbig. rewrite Hres.
    destruct (Z.ltb_spec (Z.of_nat (length rows)) index); [reflexivity|lia].
  - intros Hin. rewrite Hres.
    destruct (Z.ltb_spec (Z.of_nat (length rows)) index); [lia|].
    destruct (index_minus_one rows index Hin) as [[Hneg _]|(_ & target & Ht & _ & Hat)];
      [lia|].
    rewrite Ht.
    destruct (safe_terminate_pid_returns o (Sampler.row_pid target)
                Safeguard.default_timeout) as (calls & ok & msg & Hs).
    exists target, calls, ok, msg. rewrite Hs. auto.
Qed.

Lemma topcpu_then_terminate_witness :
  Commands.terminate (Commands.topcpu ∅ two_processes 1000 7) os_easy 1600 7 3
  = ([], Exc.Ret (Commands.IndexOutOfRange 2)).
Proof.
  assert (Hfresh : (1600 - 1000 <= 600)%Q) by (apply Qle_bool_imp_le; reflexivity).
  apply (topcpu_then_terminate ∅ two_processes os_easy 1000 1600 7 3 Hfresh);
    vm_compute; [discriminate | reflexivity].
Defined.

(** X14.  Without a list of the caller, or with one older than 600
    seconds, [/terminate] answers that there is no recent list and makes no
    call on any process, whatever the index; a list that is exactly 600
    seconds old is still used. *)
Theorem stale_or_missing_list_is_refused
    (cache : gmap Z Commands.cache_entry) (o : Safeguard.os) (now : Q)
    (user_id index : Z) :
  let result := Commands.terminate cache o now user_id index in
  (cache !! user_id = None → result = ([], Exc.Ret Commands.NoRecentList))
  ∧ (∀ entry, cache !! user_id = Some entry →
       (600 < now - Commands.at_ entry)%Q →
       result = ([], Exc.Ret Commands.NoRecentList))
  ∧ (∀ entry, cache !! user_id = Some entry →
       (now - Commands.at_ entry <= 600)%Q →
       snd result ≠ Exc.Ret Commands.NoRecentList).
Proof.
  intros result. subst result. split; [|split].
  - apply terminate_missing.
  - intros entry. apply terminate_stale.
  - intros entry Hlook Hfresh.
    rewrite (terminate_on_fresh_entry cache o now user_id index entry Hlook Hfresh).
    destruct (_ <? _); [discriminate|].
    destruct (Py.index _ _) as [target|]; [|discriminate].
    destruct (safe_terminate_pid_returns o (Sampler.row_pid target)
                Safeguard.default_timeout) as (calls & ok & msg & ->).
    discriminate.
Qed.

(** X15.  The cache is per caller and the last store wins: a [/topcpu] by
    one caller changes nothing for the [/terminate] of another, and a second
    [/topcpu] by the same caller replaces the first. *)
Theorem topcpu_is_per_caller
    (cache : gmap Z Commands.cache_entry) (h h' : Sampler.host) (o : Safeguard.os)
    (stored stored' now : Q) (user_id other index : Z) :
  (user_id ≠ other →
   Commands.terminate (Commands.topcpu cache h stored user_id) o now other index
   = Commands.terminate cache o now other index)
  ∧ Commands.topcpu (Commands.topcpu cache h stored user_id) h' stored' user_id
    = Commands.topcpu cache h' stored' user_id.
Proof.
  split.
  - intros Hne. unfold Commands.terminate, Commands.topcpu.
    rewrite lookup_insert_ne by exact Hne. reflexivity.
  - unfold Commands.topcpu. apply insert_insert_eq.
Qed.

(** X16.  [/terminate] touches only what the caller listed: either it
    makes no call at all, or the caller has a list that is not older than
    600 seconds and every call is on the pid of one row of that list. *)
Theorem terminate_only_touches_listed_pids
    (cache : gmap Z Commands.cache_entry) (o : Safeguard.os) (now : Q)
    (user_id index : Z) :
  let calls := fst (Commands.terminate cache o now user_id index) in
  calls = []
  ∨ ∃ entry target,
      cache !! user_id = Some entry
      ∧ (now - Commands.at_ entry <= 600)%Q
      ∧ target ∈ Commands.rows entry
      ∧ Forall (fun s => syscall_pid s = Sampler.row_pid target) calls.
Proof.
  intros calls. subst calls.
  destruct (cache !! user_id) as [entry|] eqn:Hlook.
  2:{ left. rewrite terminate_missing by exact Hlook. reflexivity. }
  destruct (Qlt_le_dec 600 (now - Commands.at_ entry)) as [Hstale|Hfresh].
  { left. rewrite (terminate_stale cache o now user_id index entry Hlook Hstale).
    reflexivity. }
  rewrite (terminate_on_fresh_entry cache o now user_id index entry Hlook Hfresh).
  destruct (Z.ltb_spec (Z.of_nat (length (Commands.rows entry))) index) as [|Hle];
    [left; reflexivity|].
  destruct (index_minus_one (Commands.rows entry) index Hle)
    as [[_ ->]|(_ & target & -> & Hin & _)]; [left; reflexivity|].
  right. exists entry, target. simpl.
  repeat split; auto. apply safe_terminate_calls_pid.
Qed.

(** X17.  The body of [/terminate] faults (an [IndexError] leaves it) only
    for an index at or below [-L] on a fresh list of [L] rows; for every
    index of at least 1, the declared range of the parameter, it always
    answers. *)
Theorem terminate_faults_only_below_range
    (cache : gmap Z Commands.cache_entry) (o : Safeguard.os) (now : Q)
    (user_id index : Z) :
  (∃ e, snd (Commands.terminate cache o now user_id index) = Exc.Raise e)
  ↔ ∃ entry, cache !! user_id = Some entry
             ∧ (now - Commands.at_ entry <= 600)%Q
             ∧ index ≤ - Z.of_nat (length (Commands.rows entry)).
Proof.
  destruct (cache !! user_id) as [entry|] eqn:Hlook.
  2:{ rewrite terminate_missing by exact Hlook. simpl.
      split; [intros [e He]; discriminate He | intros (entry & He & _); discriminate He]. }
  destruct (Qlt_le_dec 600 (now - Commands.at_ entry)) as [Hstale|Hfresh].
  { rewrite (terminate_stale cache o now user_id index entry Hlook Hstale). simpl.
    split; [intros [e He]; discriminate He|].
    intros (entry' & He & Hf & _). injection He as <-.
    exfalso. exact (Qlt_not_le _ _ Hstale Hf). }
  rewrite (terminate_on_fresh_entry cache o now user_id index entry Hlook Hfresh).
  destruct (Z.ltb_spec (Z.of_nat (length (Commands.rows entry))) index) as [Hbig|Hle].
  { simpl. split; [intros [e He]; discriminate He|].
    intros (entry' & He & _ & Hlow). injection He as <-. lia. }
  destruct (index_minus_one (Commands.rows entry) index Hle)
    as [[Hlow ->]|(Hhigh & target & -> & _)].
  - simpl. split; [|eauto]. intros _. exists entry. auto.
  - destruct (safe_terminate_pid_returns o (Sampler.row_pid target)
                Safeguard.default_timeout) as (calls & ok & msg & ->).
    simpl. split; [intros [e He]; discriminate He|].
    intros (entry' & He & _ & Hlow). injection He as <-. lia.
Qed.

(** ** The statistics of the status panel *)

Section HistoryStats.
Import Status.





End HistoryStats.



(** ** The display helpers *)

Section Rounding.
Import Display.

Lemma round_bounds x : Qfloor x ≤ round x ≤ Qfloor x + 1.
Proof.
  unfold round. destruct (_ ?= _)%Q; [destruct (Z.even _)| |]; lia.
Qed.

Lemma floor_nonpos x : (x <= 0)%Q → Qfloor x ≤ 0.
Proof. intros H. apply (Qfloor_resp_le x 0 H). Qed.

Lemma floor_ge_int (n : Z) x : (inject_Z n <= x)%Q → n ≤ Qfloor x.
Proof.
  intros H. rewrite <- (Qfloor_Z n). apply Qfloor_resp_le, H.
Qed.

Lemma round_nonpos x : (x <= 0)%Q → round x ≤ 0.
Proof.
  intros Hx. pose proof (floor_nonpos x Hx) as Hf. unfold round.
  destruct (x - inject_Z (Qfloor x) ?= 1 # 2)%Q eqn:E.
  - apply Qeq_alt in E. destruct (Z.even _); [lia|].
    destruct (Z.eq_dec (Qfloor x) 0) as [H0|]; [|lia].
    rewrite H0 in E. change (inject_Z 0) with 0%Q in E. lra.
  - lia.
  - apply Qgt_alt in E.
    destruct (Z.eq_dec (Qfloor x) 0) as [H0|]; [|lia].
    rewrite H0 in E. change (inject_Z 0) with 0%Q in E. lra.
Qed.

Lemma round_ge_int (n : Z) x : (inject_Z n <= x)%Q → n ≤ round x.
Proof.
  intros H. pose proof (floor_ge_int n x H). pose proof (round_bounds x). lia.
Qed.

Lemma round_mono x y : (x <= y)%Q → round x ≤ round y.
Proof.
  intros Hxy. pose proof (Qfloor_resp_le x y Hxy) as Hf.
  pose proof (round_bounds x) as Hx. pose proof (round_bounds y) as Hy.
  destruct (Z.eq_dec (Qfloor x) (Qfloor y)) as [Heq|]; [|lia].
  clear Hx Hy Hf. unfold round. rewrite <- Heq.
  destruct (x - inject_Z (Qfloor x) ?= 1 # 2)%Q eqn:Ex;
    destruct (y - inject_Z (Qfloor x) ?= 1 # 2)%Q eqn:Ey;
    try (destruct (Z.even _)); try lia; exfalso;
    first [apply Qeq_alt in Ex | apply Qlt_alt in Ex | apply Qgt_alt in Ex];
    first [apply Qeq_alt in Ey | apply Qlt_alt in Ey | apply Qgt_alt in Ey];
    lra.
Qed.

Lemma str_mul_rep s n : str_mul s n = str_rep s (Z.to_nat n).
Proof. reflexivity. Qed.

End Rounding.

(** X20.  The uptime text shows days, hours, minutes and seconds that add
    up to the whole seconds elapsed since the start, with hours below 24
    and minutes and seconds below 60; when the clock is not behind the
    start, the days are not negative and less than one second is cut. *)
Theorem uptime_decomposes (now BOT_START : Q) :
  let total := Display.int_of_float (now - BOT_START)%Q in
  ∃ d h m s,
    Display._uptime now BOT_START
    = Py.str d +:+ "d " +:+ Py.str h +:+ "h " +:+ Py.str m +:+ "m "
      +:+ Py.str s +:+ "s"
    ∧ d * 86400 + h * 3600 + m * 60 + s = total
    ∧ 0 ≤ h < 24 ∧ 0 ≤ m < 60 ∧ 0 ≤ s < 60
    ∧ ((BOT_START <= now)%Q →
       0 ≤ d
       ∧ (inject_Z total <= now - BOT_START < inject_Z total + 1)%Q).
Proof.
  intros total.
  exists (total / 86400), (total mod 86400 / 3600),
         (total mod 86400 mod 3600 / 60), (total mod 86400 mod 3600 mod 60).
  split; [reflexivity|].
  pose proof (Z.div_mod total 86400 ltac:(lia)) as H1.
  pose proof (Z.mod_pos_bound total 86400 ltac:(lia)) as B1.
  pose proof (Z.div_mod (total mod 86400) 3600 ltac:(lia)) as H2.
  pose proof (Z.mod_pos_bound (total mod 86400) 3600 ltac:(lia)) as B2.
  pose proof (Z.div_mod (total mod 86400 mod 3600) 60 ltac:(lia)) as H3.
  pose proof (Z.mod_pos_bound (total mod 86400 mod 3600) 60 ltac:(lia)) as B3.
  assert (Hh : 0 ≤ total mod 86400 / 3600 < 24).
  { split; [apply Z.div_pos; lia | apply Z.div_lt_upper_bound; lia]. }
  assert (Hm : 0 ≤ total mod 86400 mod 3600 / 60 < 60).
  { split; [apply Z.div_pos; lia | apply Z.div_lt_upper_bound; lia]. }
  split; [lia|]. split; [exact Hh|]. split; [exact Hm|]. split; [exact B3|].
  intros Hclock.
  assert (Hnn : (0 <= now - BOT_START)%Q) by lra.
  assert (Htot : total = Qfloor (now - BOT_START)).
  { subst total. unfold Display.int_of_float.
    apply Qle_bool_iff in Hnn. rewrite Hnn. reflexivity. }
  split.
  - apply Z.div_pos; [|lia]. rewrite Htot.
    apply (floor_ge_int 0). exact Hnn.
  - rewrite Htot. split; [apply Qfloor_le|].
    pose proof (Qlt_floor (now - BOT_START)) as Hlt.
    rewrite inject_Z_plus in Hlt. exact Hlt.
Qed.

(** X21.  The bar always has [max(0, length)] cells, the filled ones
    first; the number of filled cells is between 0 and that length, 0 for a
    load of 0 or less and all of them for a load of 100 or more. *)
Theorem bar_shape (pct : Q) (length : Z) :
  let k := Display.filled pct length in
  0 ≤ k ≤ Z.max 0 length
  ∧ Display._bar pct length
    = Display.str_rep "▰" (Z.to_nat k)
      +:+ Display.str_rep "▱" (Z.to_nat (Z.max 0 length) - Z.to_nat k)
  ∧ (0 ≤ length → (pct <= 0)%Q → k = 0)
  ∧ (0 ≤ length → (100 <= pct)%Q → k = length).
Proof.
  intros k. subst k. unfold Display._bar, Display.filled.
  set (r := Display.round (inject_Z length * pct / 100)%Q).
  split; [lia|]. split; [|split].
  - rewrite !str_mul_rep. f_equal. f_equal. lia.
  - intros Hlen Hpct.
    assert (Hr : r ≤ 0).
    { apply round_nonpos. apply Qle_shift_div_r; [reflexivity|].
      assert (0 <= inject_Z length)%Q
        by (change 0%Q with (inject_Z 0); rewrite <- Zle_Qle; exact Hlen).
      nra. }
    lia.
  - intros Hlen Hpct.
    assert (Hr : length ≤ r).
    { apply round_ge_int. apply Qle_shift_div_l; [reflexivity|].
      assert (0 <= inject_Z length)%Q
        by (change 0%Q with (inject_Z 0); rewrite <- Zle_Qle; exact Hlen).
      nra. }
    lia.
Qed.

(** X22.  The bar fills with the load: for a bar of non-negative length, a
    higher percentage never gives fewer filled cells. *)
Theorem bar_fills_with_load (pct pct' : Q) (length : Z) :
  0 ≤ length →
  (pct <= pct')%Q →
  Display.filled pct length ≤ Display.filled pct' length.
Proof.
  intros Hlen Hpct. unfold Display.filled.
  assert (Hr : Display.round (inject_Z length * pct / 100)%Q
               ≤ Display.round (inject_Z length * pct' / 100)%Q).
  { apply round_mono.
    assert (0 <= inject_Z length)%Q
      by (change 0%Q with (inject_Z 0); rewrite <- Zle_Qle; exact Hlen).
    unfold Qdiv. apply Qmult_le_compat_r; [nra|].
    apply Qle_bool_imp_le. reflexivity. }
  lia.
Qed.

Lemma bar_fills_with_load_witness :
  Display.filled 25 20 = 5 ∧ Display.filled 80 20 = 16
  ∧ Display.filled 25 20 ≤ Display.filled 80 20.
Proof.
  split; [reflexivity|]. split; [reflexivity|].
  apply (bar_fills_with_load 25 80 20); [lia|].
  apply Qle_bool_imp_le. reflexivity.
Defined.

(** ** The live status *)

Lemma live_updates_spec (edit_ok : nat → bool) (rounds : nat) : ∀ i,
  ∃ k, (k ≤ rounds)%nat
       ∧ (∀ j, (j < k)%nat → edit_ok (i + j)%nat = true)
       ∧ ((k = rounds
           ∧ StatusCommand.live_updates rounds edit_ok i = replicate k true)
          ∨ ((k < rounds)%nat ∧ edit_ok (i + k)%nat = false
             ∧ StatusCommand.live_updates rounds edit_ok i
               = replicate k true ++ [false])).
Proof.
  induction rounds as [|r IH]; intros i.
  - exists O. split; [lia|]. split; [intros j Hj; lia|]. left. split; reflexivity.
  - simpl. destruct (edit_ok i) eqn:Hi.
    + destruct (IH (S i)) as (k & Hk & Hall & Hend). exists (S k).
      split; [lia|]. split.
      * intros [|j] Hj; [rewrite Nat.add_0_r; exact Hi|].
        replace (i + S j)%nat with (S i + j)%nat by lia. apply Hall. lia.
      * replace (i + S k)%nat with (S i + k)%nat by lia.
        destruct Hend as [[-> ->]|(Hlt & Hfail & ->)].
        -- left. split; reflexivity.
        -- right. split; [lia|]. split; [exact Hfail|reflexivity].
    + exists O. split; [lia|]. split; [intros j Hj; lia|].
      right. rewrite Nat.add_0_r. split; [lia|]. split; [exact Hi|reflexivity].
Qed.

(** X23.  The live status makes at most 150 updates and stops at the first
    edit that fails: either all 150 edits go through, or the edits before
    the first failing one go through, the failing one is the last, and
    nothing is edited after it. *)
Theorem status_stops_at_first_failure (edit_ok : nat → bool) :
  ∃ k, (k ≤ 150)%nat
       ∧ (∀ j, (j < k)%nat → edit_ok j = true)
       ∧ (length (StatusCommand.status edit_ok) ≤ 150)%nat
       ∧ ((k = 150%nat ∧ StatusCommand.status edit_ok = replicate 150 true)
          ∨ ((k < 150)%nat ∧ edit_ok k = false
             ∧ StatusCommand.status edit_ok = replicate k true ++ [false])).
Proof.
  destruct (live_updates_spec edit_ok 150 0) as (k & Hk & Hall & Hend).
  exists k. split; [exact Hk|]. split; [exact Hall|].
  unfold StatusCommand.status.
  destruct Hend as [[-> Heq]|(Hlt & Hfail & Heq)].
  - split; [rewrite Heq, length_replicate; lia|]. left. split; [reflexivity|exact Heq].
  - split; [rewrite Heq, length_app, length_replicate; simpl; lia|].
    right. split; [exact Hlt|]. split; [exact Hfail|exact Heq].
Qed.
